(** * fje: the JSON node model, its visitors and the star style

    A shallow embedding of [fje/node.py], [fje/style/star_style.py] and
    [fje/style/__init__.py].

    - Python [str] is a sequence of Unicode code points and [len] counts
      them, so a string is a [list N] of code points.
    - Python [int] is unbounded: levels, ids and widths are in [Z].
    - The module global [id], standard output and the files on disk form
      the [world]; code that touches them or raises runs in the monad [M].
    - [StyledJSONBuilder] is here with all its methods; the tree and
      rectangle styles and the class [IconFamily] are other modules'.
    - Two limits of the interpreter are outside the model: the recursion
      limit, which [_create] and [accept] meet on a document nested
      hundreds of levels deep, and the encoding of standard output,
      which makes [print] raise on a string it cannot encode.  The
      statements about a tree take the tree as built, and those about
      every line being printed take the lines to be encodable. *)

From Stdlib Require Import String Ascii DecimalString.
From Stdlib Require DecimalPos DecimalFacts.
From Stdlib Require Import ZArith List Lia Bool Sorted Relations.
Import ListNotations.
Local Open Scope Z_scope.

(** ** Python strings *)

Module PyStr.

Definition pystr := list N.

(** An ASCII literal as a Python string. *)
Definition lit (s : String.string) : pystr :=
  map Ascii.N_of_ascii (String.list_ascii_of_string s).
Arguments lit s%_string.

(** [len(s)] *)
Definition len (s : pystr) : Z := Z.of_nat (length s).

(** [s * n]: no copy for [n <= 0]. *)
Definition mul (s : pystr) (n : Z) : pystr :=
  concat (repeat s (Z.to_nat n)).

(** [s.ljust(width, fill)]: [s] itself when it is already [width] long. *)
Definition ljust (s : pystr) (width : Z) (fill : N) : pystr :=
  s ++ repeat fill (Z.to_nat (width - len s)).

(** [str(n)] for an [int]. *)
Definition of_int (n : Z) : pystr :=
  lit (DecimalString.NilZero.string_of_int (Z.to_int n)).

(** [a == b] *)
Fixpoint eqb (a b : pystr) : bool :=
  match a, b with
  | [], [] => true
  | x :: a', y :: b' => N.eqb x y && eqb a' b'
  | _, _ => false
  end.

End PyStr.
Import PyStr.

(** The box-drawing characters of the star style. *)
Definition BOX_H : N := 9472.   (* U+2500 *)
Definition BOX_V : N := 9474.   (* U+2502 *)
Definition BOX_VR : N := 9500.  (* U+251C *)
Definition BOX_VL : N := 9508.  (* U+2524 *)
Definition BOX_UH : N := 9524.  (* U+2534 *)
Definition SPACE : N := 32.

(** ** Exceptions, the world and the monad *)

Inductive exn :=
| FJEException (msg : pystr)
| AttributeError
| OtherError.   (* [open] or [json.load] failed *)

Inductive result (A : Type) :=
| Ok (a : A)
| Raise (e : exn).
Arguments Ok {A} a.
Arguments Raise {A} e.

(** ** Parsed JSON values, as [json.load] returns them *)

Inductive pyscalar :=
| PyStr (s : pystr)
| PyInt (n : Z)
| PyBool (b : bool)
| PyFloat (repr : pystr).   (* a float, given by the text [str] prints *)

#[local] Unset Elimination Schemes.
Inductive json :=
| JNull
| JScalar (s : pyscalar)
| JList (items : list json)
| JDict (items : list (pystr * json)).   (* in iteration order *)
#[local] Set Elimination Schemes.

(** [str(obj)] for a scalar. *)
Definition py_str (s : pyscalar) : pystr :=
  match s with
  | PyStr s => s
  | PyInt n => of_int n
  | PyBool true => lit "True"
  | PyBool false => lit "False"
  | PyFloat r => r
  end.

(** [next_id] is the module global [id] of node.py; [stdout] the lines
    printed so far, oldest first; [files p] is [None] when
    [os.path.isfile p] is false, [Some None] when reading or parsing the
    file fails, and [Some (Some v)] when [json.load] returns [v]. *)
Record world := mkWorld {
  next_id : Z;
  stdout : list pystr;
  files : pystr -> option (option json)
}.

Definition M (A : Type) : Type := world -> result A * world.

Definition ret {A} (a : A) : M A := fun w => (Ok a, w).

Definition bind {A B} (m : M A) (k : A -> M B) : M B :=
  fun w => match m w with
           | (Ok a, w') => k a w'
           | (Raise e, w') => (Raise e, w')
           end.

Definition raise {A} (e : exn) : M A := fun w => (Raise e, w).

Notation "x <- m ;; k" := (bind m (fun x => k))
  (at level 61, m at next level, right associativity).
Notation "m ;;; k" := (bind m (fun _ => k))
  (at level 61, right associativity).

(** [print(line)] *)
Definition print (line : pystr) : M unit :=
  fun w => (Ok tt, mkWorld (next_id w) (stdout w ++ [line]) (files w)).

(** ** The nodes *)

#[local] Unset Elimination Schemes.
Inductive JSONNode :=
| JSONComposite (_name : pystr) (_level : Z) (_id : Z)
                (_children : list JSONNode)
| JSONLeaf (_name : pystr) (_level : Z) (_id : Z) (_value : option pystr).
#[local] Set Elimination Schemes.

Definition get_name (n : JSONNode) : pystr :=
  match n with
  | JSONComposite name _ _ _ | JSONLeaf name _ _ _ => name
  end.

Definition get_level (n : JSONNode) : Z :=
  match n with
  | JSONComposite _ level _ _ | JSONLeaf _ level _ _ => level
  end.

Definition get_id (n : JSONNode) : Z :=
  match n with
  | JSONComposite _ _ i _ | JSONLeaf _ _ i _ => i
  end.

Definition is_root (n : JSONNode) : bool := get_level n =? 0.

Definition is_leaf (n : JSONNode) : bool :=
  match n with
  | JSONComposite _ _ _ _ => false
  | JSONLeaf _ _ _ _ => true
  end.

(** [get_children] exists on a composite only. *)
Definition get_children (n : JSONNode) : list JSONNode :=
  match n with
  | JSONComposite _ _ _ cs => cs
  | JSONLeaf _ _ _ _ => []
  end.

(** [get_value] exists on a leaf only; every caller tests [is_leaf]
    first. *)
Definition get_value (n : JSONNode) : option pystr :=
  match n with
  | JSONComposite _ _ _ _ => None
  | JSONLeaf _ _ _ v => v
  end.

(** [JSONNode.__init__]: take the global [id], then increment it. *)
Definition fresh_id : M Z :=
  fun w => (Ok (next_id w), mkWorld (next_id w + 1) (stdout w) (files w)).

Definition JSONComposite_init (name : pystr) (level : Z) : M JSONNode :=
  i <- fresh_id ;; ret (JSONComposite name level i []).

Definition JSONLeaf_init (name : pystr) (level : Z) (value : option pystr)
  : M JSONNode :=
  i <- fresh_id ;; ret (JSONLeaf name level i value).

(** [composite.add_child(child)]: append; a leaf has no such method. *)
Definition add_child (composite child : JSONNode) : M JSONNode :=
  match composite with
  | JSONComposite name level i cs =>
      ret (JSONComposite name level i (cs ++ [child]))
  | JSONLeaf _ _ _ _ => raise AttributeError
  end.

(** ** JSONNodeFactory *)

(** [f'Array[{idx}]'] *)
Definition array_name (idx : Z) : pystr :=
  lit "Array[" ++ of_int idx ++ lit "]".

Definition _create_leaf (name : pystr) (level : Z) (obj : option pyscalar)
  : M JSONNode :=
  match obj with
  | None => JSONLeaf_init name level None
  | Some s => JSONLeaf_init name level (Some (py_str s))
  end.

Section Create.
(** The recursive call [self._create]. *)
Variable _create : pystr -> Z -> json -> M JSONNode.

(** The loop [for idx, item in enumerate(obj)] from index [idx] on. *)
Definition list_loop (level : Z) :=
  fix loop (obj : list json) (idx : Z) (composite : JSONNode)
    : M JSONNode :=
    match obj with
    | [] => ret composite
    | item :: rest =>
        child <- _create (array_name idx) (level + 1) item ;;
        composite' <- add_child composite child ;;
        loop rest (idx + 1) composite'
    end.

Definition _create_composite_from_list (name : pystr) (level : Z)
    (obj : list json) : M JSONNode :=
  composite <- JSONComposite_init name level ;;
  list_loop level obj 0 composite.

(** The loop [for key, value in obj.items()]. *)
Definition dict_loop (level : Z) :=
  fix loop (obj : list (pystr * json)) (composite : JSONNode)
    : M JSONNode :=
    match obj with
    | [] => ret composite
    | (key, value) :: rest =>
        child <- _create key (level + 1) value ;;
        composite' <- add_child composite child ;;
        loop rest composite'
    end.

Definition _create_composite_from_dict (name : pystr) (level : Z)
    (obj : list (pystr * json)) : M JSONNode :=
  composite <- JSONComposite_init name level ;;
  dict_loop level obj composite.
End Create.

Fixpoint _create (name : pystr) (level : Z) (obj : json) {struct obj}
  : M JSONNode :=
  match obj with
  | JList items => _create_composite_from_list _create name level items
  | JDict items => _create_composite_from_dict _create name level items
  | JScalar s => _create_leaf name level (Some s)
  | JNull => _create_leaf name level None
  end.

(** [isinstance(obj, (dict, list))] *)
Definition is_dict_or_list (obj : json) : bool :=
  match obj with
  | JList _ | JDict _ => true
  | JNull | JScalar _ => false
  end.

(** [os.path.isfile(filepath)] *)
Definition isfile (filepath : pystr) : M bool :=
  fun w => (Ok (match files w filepath with Some _ => true | None => false end),
            w).

(** [with open(filepath) as f: json.load(f)] *)
Definition json_load (filepath : pystr) : M json :=
  fun w => match files w filepath with
           | Some (Some v) => (Ok v, w)
           | _ => (Raise OtherError, w)
           end.

(** The message [f'文件{filepath}不存在']. *)
Definition msg_no_file (filepath : pystr) : pystr :=
  [25991; 20214]%N ++ filepath ++ [19981; 23384; 22312]%N.

(** The message ['JSON根节点必须是字典或列表']. *)
Definition msg_invalid_root : pystr :=
  lit "JSON" ++ [26681; 33410; 28857; 24517; 39035; 26159; 23383; 20856;
                 25110; 21015; 34920]%N.

Module JSONNodeFactory.

Record t := mk { json_data : json }.

Definition init (filepath : pystr) : M t :=
  present <- isfile filepath ;;
  if negb present then raise (FJEException (msg_no_file filepath))
  else
    data <- json_load filepath ;;
    if negb (is_dict_or_list data)
    then raise (FJEException msg_invalid_root)
    else ret (mk data).

Definition create (self : t) : M JSONNode :=
  _create [] 0 (json_data self).

End JSONNodeFactory.

(** ** Visitors and the traversal *)

Class JSONVisitor (V : Type) := {
  visit_composite : V -> JSONNode -> M V;
  visit_leaf : V -> JSONNode -> M V
}.

Section Accept.
Context {V : Type} `{JSONVisitor V}.

(** [node.accept(visitor)]; the visitor is returned as the visits left
    it. *)
Fixpoint accept (node : JSONNode) (visitor : V) {struct node} : M V :=
  match node with
  | JSONComposite _ _ _ children =>
      visitor <- visit_composite visitor node ;;
      (fix loop (cs : list JSONNode) (visitor : V) : M V :=
         match cs with
         | [] => ret visitor
         | child :: rest =>
             visitor <- accept child visitor ;; loop rest visitor
         end) children visitor
  | JSONLeaf _ _ _ _ => visit_leaf visitor node
  end.
End Accept.

Module JSONPrinterVisitor.

Definition t := unit.

(** [str(value)] in an f-string: ['None'] for [None]. *)
Definition show_value (value : option pystr) : pystr :=
  match value with
  | Some v => v
  | None => lit "None"
  end.

#[global] Instance visitor : JSONVisitor t := {
  visit_composite self composite :=
    print (lit "Composite: " ++ get_name composite
           ++ lit " Level: " ++ of_int (get_level composite)) ;;;
    ret self;
  visit_leaf self leaf :=
    print (lit "Leaf: " ++ get_name leaf
           ++ lit " Level: " ++ of_int (get_level leaf)
           ++ lit " Value: " ++ show_value (get_value leaf)) ;;;
    ret self
}.

End JSONPrinterVisitor.

Module GridWidthVisitor.

Record t := mk { grid_width : Z }.

Definition init : t := mk 16.

Definition update_grid_width (self : t) (node : JSONNode) : t :=
  let prefix_length := Z.max ((get_level node - 1) * 3 + 2) 0 in
  let name_length := len (get_name node) + 2 in
  let name_length :=
    match is_leaf node, get_value node with
    | true, Some value => name_length + (len value + 2)
    | _, _ => name_length
    end in
  let name_length := name_length + 4 in
  mk (Z.max (grid_width self) (prefix_length + name_length + 2)).

#[global] Instance visitor : JSONVisitor t := {
  visit_composite self composite := ret (update_grid_width self composite);
  visit_leaf self leaf := ret (update_grid_width self leaf)
}.

End GridWidthVisitor.

Module FirstLastVisitor.

Record t := mk {
  first_visited : bool;
  first_id : option Z;
  last_id : option Z
}.

Definition init : t := mk false None None.

(** The body [visit_composite] and [visit_leaf] share. *)
Definition visit (self : t) (node : JSONNode) : t :=
  let self :=
    if negb (first_visited self)
    then mk true (Some (get_id node)) (last_id self)
    else self in
  mk (first_visited self) (first_id self) (Some (get_id node)).

#[global] Instance visitor : JSONVisitor t := {
  visit_composite self composite := ret (visit self composite);
  visit_leaf self leaf := ret (visit self leaf)
}.

(** [i == recorded]: an [int] never equals [None]. *)
Definition id_eq (i : Z) (recorded : option Z) : bool :=
  match recorded with
  | Some j => i =? j
  | None => false
  end.

Definition is_first (self : t) (node : JSONNode) : bool :=
  id_eq (get_id node) (first_id self).

Definition is_last (self : t) (node : JSONNode) : bool :=
  id_eq (get_id node) (last_id self).

End FirstLastVisitor.

(** ** The star style *)

(** The class [IconFamily] of [fje/icon.py], as its uses show it: built
    as [IconFamily(composite, leaf)], read through [composite_icon] and
    [leaf_icon]. *)
Record IconFamily := mkIconFamily {
  composite_icon : pystr;
  leaf_icon : pystr
}.

Module RenderVisitor.

Record t := mk {
  grid_width : Z;
  fl_visitor : FirstLastVisitor.t;
  icon_family : IconFamily
}.

(** The text [render_node] prints for a node that is not the root. *)
Definition line (self : t) (node : JSONNode) : pystr :=
  let fl := fl_visitor self in
  let result := [] in
  (* first layer *)
  let result :=
    if FirstLastVisitor.is_first fl node then result ++ [BOX_H; BOX_H]
    else if FirstLastVisitor.is_last fl node then result ++ [BOX_H; BOX_H]
    else if get_level node =? 1 then result ++ [BOX_VR; BOX_H]
    else result ++ [BOX_V; SPACE] in
  (* straight lines *)
  let result :=
    if get_level node >? 2 then
      if FirstLastVisitor.is_last fl node
      then result ++ mul [BOX_H; BOX_UH; BOX_H] (get_level node - 2)
      else result ++ mul [SPACE; BOX_V; SPACE] (get_level node - 2)
    else result in
  (* header *)
  let result :=
    if FirstLastVisitor.is_last fl node
    then result ++ [BOX_H; BOX_UH; BOX_H]
    else if get_level node >? 1 then result ++ [SPACE; BOX_VR; BOX_H]
    else result in
  (* icon *)
  let result :=
    if is_leaf node then result ++ leaf_icon (icon_family self)
    else result ++ composite_icon (icon_family self) in
  (* name surrounded by stars *)
  let result := result ++ (lit "* " ++ get_name node ++ lit " *") in
  (* value *)
  let result :=
    match is_leaf node, get_value node with
    | true, Some value => result ++ (lit ": " ++ value)
    | _, _ => result
    end in
  (* padding *)
  let result := ljust (result ++ lit " ") (grid_width self - 2) BOX_H in
  (* last layer *)
  if FirstLastVisitor.is_first fl node then result ++ [BOX_H; BOX_H]
  else if FirstLastVisitor.is_last fl node then result ++ [BOX_H; BOX_H]
  else result ++ [BOX_H; BOX_VL].

Definition render_node (self : t) (node : JSONNode) : M unit :=
  if is_root node then ret tt
  else print (line self node).

#[global] Instance visitor : JSONVisitor t := {
  visit_composite self composite :=
    render_node self composite ;;; ret self;
  visit_leaf self leaf := render_node self leaf ;;; ret self
}.

End RenderVisitor.

Module StarStyledJSONNode.

Record t := mk {
  grid_width_visitor : GridWidthVisitor.t;
  fl_visitor : FirstLastVisitor.t;
  icon_family : IconFamily;
  _root : JSONNode
}.

(** [super().__init__(root, icon_family)] is the base class's, in
    [fje/style/style.py]; the fields it may set are set again below. *)
Definition init (root : JSONNode) (icon_family : IconFamily) : M t :=
  (* Calculate maximum grid width *)
  grid_width_visitor <- accept root GridWidthVisitor.init ;;
  (* Detect the first and last nodes *)
  fl_visitor <- accept root FirstLastVisitor.init ;;
  ret (mk grid_width_visitor fl_visitor icon_family root).

Definition render (self : t) : M unit :=
  let render_visitor :=
    RenderVisitor.mk
      (GridWidthVisitor.grid_width (grid_width_visitor self))
      (fl_visitor self) (icon_family self) in
  accept (_root self) render_visitor ;;; ret tt.

End StarStyledJSONNode.

Module StarStyledJSONNodeFactory.
Definition create (root : JSONNode) (icon_family : IconFamily)
  : M StarStyledJSONNode.t :=
  StarStyledJSONNode.init root icon_family.
End StarStyledJSONNodeFactory.

(** [JSONNodeFactory(filepath).create()], as [create_styled_json] runs
    it. *)
Definition factory_build (filepath : pystr) : M JSONNode :=
  factory <- JSONNodeFactory.init filepath ;;
  JSONNodeFactory.create factory.

(** ** StyledJSONBuilder *)

(** The interfaces [StyledJSONNode] and [StyledJSONNodeFactory] of
    [fje/style/style.py], as objects with one method each. *)
Module StyledJSONNode.
Record t := mk { render : M unit }.
End StyledJSONNode.

Module StyledJSONNodeFactory.
Record t := mk {
  create : JSONNode -> IconFamily -> M StyledJSONNode.t
}.
End StyledJSONNodeFactory.

(** The star factory behind the interface. *)
Definition star_factory : StyledJSONNodeFactory.t :=
  StyledJSONNodeFactory.mk (fun root icon_family =>
    styled <- StarStyledJSONNodeFactory.create root icon_family ;;
    ret (StyledJSONNode.mk (StarStyledJSONNode.render styled))).

(** [d[key]] on a dict kept as a list of entries. *)
Fixpoint lookup {A : Type} (d : list (pystr * A)) (key : pystr) : option A :=
  match d with
  | [] => None
  | (k, v) :: rest => if eqb k key then Some v else lookup rest key
  end.

(** The message [f'找不到图标集：{icon_family}']. *)
Definition msg_no_icon_family (icon_family : pystr) : pystr :=
  [25214; 19981; 21040; 22270; 26631; 38598; 65306]%N ++ icon_family.

(** The message [f'找不到样式：{style}']. *)
Definition msg_no_style (style : pystr) : pystr :=
  [25214; 19981; 21040; 26679; 24335; 65306]%N ++ style.

(** [d[key] = value] on a dict kept as a list of entries: the value of
    a key that is present is replaced where it stands, a new key goes
    to the end. *)
Fixpoint dict_set {A : Type} (d : list (pystr * A)) (key : pystr)
    (value : A) : list (pystr * A) :=
  match d with
  | [] => [(key, value)]
  | (k, v) :: rest =>
      if eqb k key then (k, value) :: rest
      else (k, v) :: dict_set rest key value
  end.

Inductive subscript_error :=
| KeyError
| TypeError.

(** [obj[key]] for a parsed value and a string key: only a dict can be
    indexed by a string. *)
Definition subscript (obj : json) (key : pystr) : subscript_error + json :=
  match obj with
  | JDict items =>
      match lookup items key with
      | Some v => inr v
      | None => inl KeyError
      end
  | JNull | JScalar _ | JList _ => inl TypeError
  end.

(** The message [f'找不到图标集文件：{filepath}']. *)
Definition msg_no_icon_file (filepath : pystr) : pystr :=
  [25214; 19981; 21040; 22270; 26631; 38598; 25991; 20214; 65306]%N
  ++ filepath.

(** The message [f'图标集文件格式错误：{filepath}']. *)
Definition msg_bad_icon_file (filepath : pystr) : pystr :=
  [22270; 26631; 38598; 25991; 20214; 26684; 24335; 38169; 35823; 65306]%N
  ++ filepath.

Module StyledJSONBuilder.

Record t := mk {
  _icon_families : list (pystr * IconFamily);
  _styles_factory : list (pystr * StyledJSONNodeFactory.t)
}.

(** The tree and rectangle factories live in modules of their own;
    [init] takes them as they are. *)
Definition init (TreeStyledJSONNodeFactory
                 RectangleStyledJSONNodeFactory : StyledJSONNodeFactory.t)
  : t :=
  mk [ (lit "default", mkIconFamily (lit " ") (lit " "));
       (lit "poker-face-icon-family", mkIconFamily [9830%N] [9824%N]);
       (lit "emoji-icon-family", mkIconFamily [128230%N] [129528%N]) ]
     [ (lit "tree", TreeStyledJSONNodeFactory);
       (lit "rect", RectangleStyledJSONNodeFactory);
       (lit "star", star_factory) ].

Definition create_styled_json (self : t)
    (filepath icon_family style : pystr) : M StyledJSONNode.t :=
  match lookup (_icon_families self) icon_family with
  | None => raise (FJEException (msg_no_icon_family icon_family))
  | Some icons =>
      match lookup (_styles_factory self) style with
      | None => raise (FJEException (msg_no_style style))
      | Some style_factory =>
          json_node <- factory_build filepath ;;
          StyledJSONNodeFactory.create style_factory json_node icons
      end
  end.

(** What the body of the [try] raises: a [KeyError] is caught and
    becomes the format error; a [TypeError] is not caught, and is an
    [OtherError] here. *)
Definition load_error (filepath : pystr) (e : subscript_error) : exn :=
  match e with
  | KeyError => FJEException (msg_bad_icon_file filepath)
  | TypeError => OtherError
  end.

(** The loop [for name, icon_family in icon_family_dict.items()] of
    [load_icon_family], on [self._icon_families].  The constructor of
    [IconFamily] is in [fje/icon.py] and is taken as [IconFamily_init];
    the entries set before an exception stay set. *)
Definition load_loop (IconFamily_init : json -> json -> M IconFamily)
    (filepath : pystr) :=
  fix loop (entries : list (pystr * json))
      (families : list (pystr * IconFamily)) (w : world)
    : (result unit * list (pystr * IconFamily)) * world :=
    match entries with
    | [] => ((Ok tt, families), w)
    | (name, icon_family) :: rest =>
        match subscript icon_family (lit "composite") with
        | inl e => ((Raise (load_error filepath e), families), w)
        | inr composite =>
            match subscript icon_family (lit "leaf") with
            | inl e => ((Raise (load_error filepath e), families), w)
            | inr leaf =>
                match IconFamily_init composite leaf w with
                | (Ok icons, w') => loop rest (dict_set families name icons) w'
                | (Raise e, w') => ((Raise e, families), w')
                end
            end
        end
    end.

(** [load_icon_family]: the result, and the builder as the call left
    it. *)
Definition load_icon_family
    (IconFamily_init : json -> json -> M IconFamily)
    (self : t) (filepath : pystr) : world -> (result unit * t) * world :=
  fun w =>
    match isfile filepath w with
    | (Raise e, w1) => ((Raise e, self), w1)
    | (Ok present, w1) =>
        if Bool.eqb present false
        then ((Raise (FJEException (msg_no_icon_file filepath)), self), w1)
        else
          match json_load filepath w1 with
          | (Raise e, w2) => ((Raise e, self), w2)
          | (Ok (JDict entries), w2) =>
              let '((r, families), w3) :=
                load_loop IconFamily_init filepath entries
                  (_icon_families self) w2 in
              ((r, mk families (_styles_factory self)), w3)
          | (Ok _, w2) => ((Raise AttributeError, self), w2)
          end
    end.

Definition get_available_styles (self : t) : list pystr :=
  map fst (_styles_factory self).

Definition get_available_icon_families (self : t) : list pystr :=
  map fst (_icon_families self).

End StyledJSONBuilder.

(** ** Worlds and documents to run the code on *)

(** A world with one file, [in.json], holding [doc]; no node built and
    nothing printed yet. *)
Definition one_file (doc : json) : world :=
  mkWorld 0 []
    (fun p => if eqb p (lit "in.json") then Some (Some doc) else None).

(** [{"a": 1, "b": [2, null]}] *)
Definition doc_a_b : json :=
  JDict [ (lit "a", JScalar (PyInt 1));
          (lit "b", JList [JScalar (PyInt 2); JNull]) ].

(** [{"a": 1}] *)
Definition doc_a : json := JDict [ (lit "a", JScalar (PyInt 1)) ].

(** The tree of [{"a": 1, "b": [2, null]}], built from counter 0. *)
Definition tree_a_b : JSONNode :=
  JSONComposite [] 0 0
    [ JSONLeaf (lit "a") 1 1 (Some (lit "1"));
      JSONComposite (lit "b") 1 2
        [ JSONLeaf (lit "Array[0]") 2 3 (Some (lit "2"));
          JSONLeaf (lit "Array[1]") 2 4 None ] ].

(** The tree of [{"a": 1}], built from counter 0. *)
Definition tree_a : JSONNode :=
  JSONComposite [] 0 0 [ JSONLeaf (lit "a") 1 1 (Some (lit "1")) ].

(** The icon family registered as [default]. *)
Definition default_icons : IconFamily := mkIconFamily (lit " ") (lit " ").

(** ** The nodes of a tree, in the order a traversal meets them *)

(** A node, then its children's subtrees from the first child to the
    last. *)
Fixpoint preorder (t : JSONNode) : list JSONNode :=
  match t with
  | JSONComposite _ _ _ cs => t :: flat_map preorder cs
  | JSONLeaf _ _ _ _ => [t]
  end.

Definition size (t : JSONNode) : nat := length (preorder t).

(** The node reached from [t] by taking child number [i] at each step of
    the path. *)
Fixpoint subtree (t : JSONNode) (p : list nat) : option JSONNode :=
  match p with
  | [] => Some t
  | i :: q =>
      match nth_error (get_children t) i with
      | Some c => subtree c q
      | None => None
      end
  end.

(** How many nodes of [t] come before the node at path [p] in
    [preorder t]. *)
Fixpoint position (t : JSONNode) (p : list nat) : nat :=
  match p with
  | [] => 0
  | i :: q =>
      match nth_error (get_children t) i with
      | Some c =>
          S (length (flat_map preorder (firstn i (get_children t)))
             + position c q)
      | None => 0
      end
  end.

(** Every child is one level below its parent, all the way down. *)
Fixpoint levels_ok (t : JSONNode) : bool :=
  match t with
  | JSONComposite _ level _ cs =>
      forallb (fun c => (get_level c =? level + 1) && levels_ok c) cs
  | JSONLeaf _ _ _ _ => true
  end.

(** [a; a+1; ...], [n] of them. *)
Fixpoint zseq (a : Z) (n : nat) : list Z :=
  match n with
  | O => []
  | S n' => a :: zseq (a + 1) n'
  end.

(** The world after [k] more nodes were constructed. *)
Definition advance (w : world) (k : nat) : world :=
  mkWorld (next_id w + Z.of_nat k) (stdout w) (files w).

(** [enumerate(obj)] from index [idx] on. *)
Fixpoint enumerate_from (idx : Z) (obj : list json) : list (Z * json) :=
  match obj with
  | [] => []
  | item :: rest => (idx, item) :: enumerate_from (idx + 1) rest
  end.

(** Running [make] on the elements from left to right, each run starting
    in the world the one before left, builds the nodes [cs]. *)
Inductive built_in_order {A : Type} (make : A -> M JSONNode)
  : list A -> world -> list JSONNode -> world -> Prop :=
| bio_nil w : built_in_order make [] w [] w
| bio_cons x xs w c w1 cs w2 :
    make x w = (Ok c, w1) ->
    built_in_order make xs w1 cs w2 ->
    built_in_order make (x :: xs) w (c :: cs) w2.

Section Visits.
Context {V : Type} `{JSONVisitor V}.

(** The visit a node dispatches to. *)
Definition visit (visitor : V) (node : JSONNode) : M V :=
  match node with
  | JSONComposite _ _ _ _ => visit_composite visitor node
  | JSONLeaf _ _ _ _ => visit_leaf visitor node
  end.

(** The visits of the nodes of a list, one after the other. *)
Fixpoint visit_all (nodes : list JSONNode) (visitor : V) : M V :=
  match nodes with
  | [] => ret visitor
  | n :: rest => visitor <- visit visitor n ;; visit_all rest visitor
  end.
End Visits.

(** What a node built under [name] at [level], when the counter stood at
    [i], looks like. *)
Definition node_ok (name : pystr) (level i : Z) (t : JSONNode) : Prop :=
  get_name t = name /\ get_level t = level /\
  map get_id (preorder t) = zseq i (size t) /\ levels_ok t = true.

Definition create_total (obj : json) : Prop :=
  forall name level w, exists t,
    _create name level obj w = (Ok t, advance w (size t)) /\
    node_ok name level (next_id w) t.

Definition children_ok (level i : Z) (cs : list JSONNode) : Prop :=
  Forall (fun c => get_level c = level + 1 /\ levels_ok c = true) cs /\
  map get_id (flat_map preorder cs) = zseq i (length (flat_map preorder cs)).

Definition make_item (level : Z) (p : Z * json) : M JSONNode :=
  _create (array_name (fst p)) (level + 1) (snd p).

Definition make_entry (level : Z) (p : pystr * json) : M JSONNode :=
  _create (fst p) (level + 1) (snd p).

(** ** The width of a node, as the width analysis is specified *)

Definition prefix_length (n : JSONNode) : Z :=
  Z.max ((get_level n - 1) * 3 + 2) 0.

Definition name_length (n : JSONNode) : Z :=
  len (get_name n) + 2
  + match n with
    | JSONLeaf _ _ _ (Some value) => len value + 2
    | _ => 0
    end
  + 4.

Definition node_width (n : JSONNode) : Z :=
  prefix_length n + name_length n + 2.

(** The largest [node_width] among [nodes], and [floor] when that is
    larger. *)
Definition max_width (floor : Z) (nodes : list JSONNode) : Z :=
  fold_right (fun n m => Z.max (node_width n) m) floor nodes.

(** One step of growth of a tree: a node is added among the children of
    a composite, or a name or a non-null value is replaced by one at
    least as long. *)
Inductive grows : JSONNode -> JSONNode -> Prop :=
| grows_add name level i cs1 cs2 x :
    grows (JSONComposite name level i (cs1 ++ cs2))
          (JSONComposite name level i (cs1 ++ x :: cs2))
| grows_composite_name name name' level i cs :
    len name <= len name' ->
    grows (JSONComposite name level i cs) (JSONComposite name' level i cs)
| grows_leaf_name name name' level i v :
    len name <= len name' ->
    grows (JSONLeaf name level i v) (JSONLeaf name' level i v)
| grows_leaf_value name level i v v' :
    len v <= len v' ->
    grows (JSONLeaf name level i (Some v)) (JSONLeaf name level i (Some v'))
| grows_child name level i cs1 cs2 c c' :
    grows c c' ->
    grows (JSONComposite name level i (cs1 ++ c :: cs2))
          (JSONComposite name level i (cs1 ++ c' :: cs2)).

(** ** Induction principles for the nested types *)

Section JsonInd.
Variable P : json -> Prop.
Hypothesis HNull : P JNull.
Hypothesis HScalar : forall s, P (JScalar s).
Hypothesis HList : forall items, Forall P items -> P (JList items).
Hypothesis HDict :
  forall items, Forall (fun kv => P (snd kv)) items -> P (JDict items).

Fixpoint json_ind (obj : json) : P obj :=
  match obj with
  | JNull => HNull
  | JScalar s => HScalar s
  | JList items =>
      HList items
        ((fix go (l : list json) : Forall P l :=
            match l with
            | [] => Forall_nil _
            | x :: r => Forall_cons x (json_ind x) (go r)
            end) items)
  | JDict items =>
      HDict items
        ((fix go (l : list (pystr * json))
            : Forall (fun kv => P (snd kv)) l :=
            match l with
            | [] => Forall_nil _
            | (k, v) :: r =>
                Forall_cons (P := fun kv => P (snd kv)) (k, v)
                  (json_ind v) (go r)
            end) items)
  end.
End JsonInd.

Section NodeInd.
Variable P : JSONNode -> Prop.
Hypothesis HComposite :
  forall name level i cs, Forall P cs -> P (JSONComposite name level i cs).
Hypothesis HLeaf : forall name level i v, P (JSONLeaf name level i v).

Fixpoint JSONNode_ind (t : JSONNode) : P t :=
  match t with
  | JSONComposite name level i cs =>
      HComposite name level i cs
        ((fix go (l : list JSONNode) : Forall P l :=
            match l with
            | [] => Forall_nil _
            | c :: r => Forall_cons c (JSONNode_ind c) (go r)
            end) cs)
  | JSONLeaf name level i v => HLeaf name level i v
  end.
End NodeInd.


(** ** Counting and renumbering *)

(** The number of values in a parsed document, containers included. *)
Fixpoint json_size (obj : json) : nat :=
  match obj with
  | JNull | JScalar _ => 1
  | JList items => S (list_sum (map json_size items))
  | JDict items => S (list_sum (map (fun kv => json_size (snd kv)) items))
  end.

(** The tree with [k] added to every id. *)
Fixpoint shift_ids (k : Z) (t : JSONNode) : JSONNode :=
  match t with
  | JSONComposite name level i cs =>
      JSONComposite name level (i + k) (map (shift_ids k) cs)
  | JSONLeaf name level i v => JSONLeaf name level (i + k) v
  end.

(** The first/last visitor with [k] added to both recorded ids. *)
Definition shift_recorded (k : Z) (fl : FirstLastVisitor.t)
  : FirstLastVisitor.t :=
  FirstLastVisitor.mk (FirstLastVisitor.first_visited fl)
    (option_map (fun i => i + k) (FirstLastVisitor.first_id fl))
    (option_map (fun i => i + k) (FirstLastVisitor.last_id fl)).

(** An [IconFamily] constructor that keeps the two glyphs when both are
    strings, to run [load_icon_family] with. *)
Definition icons_of_strings (composite leaf : json) : M IconFamily :=
  match composite, leaf with
  | JScalar (PyStr c), JScalar (PyStr l) => ret (mkIconFamily c l)
  | _, _ => raise OtherError
  end.

(** Building [obj] in two worlds: the same tree but for the ids, which
    differ by the difference of the two counters, and one node for each
    value of [obj]. *)
Definition create_twice (obj : json) : Prop :=
  forall name level w w2, exists t,
    _create name level obj w = (Ok t, advance w (size t)) /\
    _create name level obj w2
    = (Ok (shift_ids (next_id w2 - next_id w) t), advance w2 (size t)) /\
    size t = json_size obj.

(** The line [JSONPrinterVisitor] prints for a node. *)
Definition printer_line (n : JSONNode) : pystr :=
  match n with
  | JSONComposite name level _ _ =>
      lit "Composite: " ++ name ++ lit " Level: " ++ of_int level
  | JSONLeaf name level _ value =>
      lit "Leaf: " ++ name ++ lit " Level: " ++ of_int level
      ++ lit " Value: " ++ JSONPrinterVisitor.show_value value
  end.

(** A visitor that raises at the first leaf it is shown. *)
Definition stop_at_leaf : JSONVisitor unit := {|
  visit_composite := fun v _ => ret v;
  visit_leaf := fun _ _ => raise OtherError
|}.

(** An entry of an icon file from which [IconFamily_init] makes
    [icons]: both glyphs are there, and the constructor returns,
    leaving the world alone. *)
Definition icon_entry (IconFamily_init : json -> json -> M IconFamily)
    (entry : pystr * json) (icons : IconFamily) : Prop :=
  exists composite leaf,
    subscript (snd entry) (lit "composite") = inr composite /\
    subscript (snd entry) (lit "leaf") = inr leaf /\
    forall w, IconFamily_init composite leaf w = (Ok icons, w).

(** An icon file [{"x": {"composite": "C", "leaf": "L"}}] and one whose
    second entry lacks the leaf glyph. *)
Definition icon_entry_x : pystr * json :=
  (lit "x", JDict [ (lit "composite", JScalar (PyStr (lit "C")));
                    (lit "leaf", JScalar (PyStr (lit "L"))) ]).

Definition icon_fields_without_leaf : list (pystr * json) :=
  [ (lit "composite", JScalar (PyStr (lit "D"))) ].

Definition empty_builder : StyledJSONBuilder.t := StyledJSONBuilder.mk [] [].

(** ** Decimal numerals and encodable strings *)





(** A string UTF-8 can encode: one without a surrogate code point
    (U+D800 to U+DFFF).  Python's [print] raises [UnicodeEncodeError] on
    another string when standard output is UTF-8; [print] above does not
    check this, and a statement that every line is printed takes it as
    a hypothesis. *)
Definition encodable (s : pystr) : Prop :=
  Forall (fun c => (c < 55296 \/ 57343 < c)%N) s.

(** A node whose name and value can be encoded. *)
Definition node_encodable (n : JSONNode) : Prop :=
  encodable (get_name n) /\
  match get_value n with
  | Some value => encodable value
  | None => True
  end.

(** ** Facts about strings *)

Lemma len_app a b : len (a ++ b) = len a + len b.
Proof. unfold len. rewrite length_app. lia. Qed.

Lemma len_nonneg a : 0 <= len a.
Proof. unfold len. lia. Qed.

Lemma len_mul s n : len (mul s n) = len s * Z.max 0 n.
Proof.
  unfold mul, len.
  induction (Z.to_nat n) as [|k IH] eqn:E in n |- *; simpl.
  - assert (n <= 0) by lia. rewrite Z.max_l by lia. lia.
  - rewrite length_app, Nat2Z.inj_add, (IH (n - 1)) by lia.
    assert (0 < n) by lia. rewrite !Z.max_r by lia. lia.
Qed.

Lemma len_ljust s width fill : len (ljust s width fill) = Z.max (len s) width.
Proof.
  unfold ljust. rewrite len_app. unfold len at 2.
  rewrite repeat_length. pose proof (len_nonneg s). lia.
Qed.

(** ** Facts about the world and about [zseq] *)

Lemma advance_advance w a b : advance (advance w a) b = advance w (a + b).
Proof. unfold advance; simpl. f_equal. lia. Qed.

Lemma advance_0 w : advance w 0 = w.
Proof. destruct w; unfold advance; simpl. f_equal. lia. Qed.

Lemma zseq_app a n m :
  zseq a (n + m) = zseq a n ++ zseq (a + Z.of_nat n) m.
Proof.
  revert a; induction n as [|n IH]; intros a; simpl.
  - f_equal. lia.
  - rewrite IH. do 3 f_equal. lia.
Qed.

Lemma zseq_length a n : length (zseq a n) = n.
Proof. revert a; induction n; intros; simpl; auto. Qed.

Lemma zseq_bounds a n x : In x (zseq a n) -> a <= x < a + Z.of_nat n.
Proof.
  revert a; induction n as [|n IH]; intros a; simpl; [tauto|].
  intros [<-|Hx]; [lia|]. apply IH in Hx. lia.
Qed.

Lemma zseq_sorted a n : StronglySorted Z.lt (zseq a n).
Proof.
  revert a; induction n as [|n IH]; intros a; simpl; constructor; auto.
  apply Forall_forall. intros x Hx. apply zseq_bounds in Hx. lia.
Qed.

Lemma zseq_nth a n k : (k < n)%nat -> nth_error (zseq a n) k = Some (a + Z.of_nat k).
Proof.
  revert a k; induction n as [|n IH]; intros a k Hk; [lia|].
  destruct k as [|k]; simpl.
  - f_equal. lia.
  - rewrite IH by lia. f_equal. lia.
Qed.

(** ** The builder *)

Lemma children_ok_cons level i t cs :
  node_ok (get_name t) (level + 1) i t ->
  children_ok level (i + Z.of_nat (size t)) cs ->
  children_ok level i (t :: cs).
Proof.
  intros (_ & Hl & Hi & Hk) (Hf & Hids). split.
  - constructor; auto.
  - simpl. rewrite map_app, length_app, zseq_app, Hi, Hids. reflexivity.
Qed.

Lemma list_loop_spec level items :
  Forall create_total items ->
  forall idx name i cs w, exists new,
    let w' := advance w (length (flat_map preorder new)) in
    list_loop _create level items idx (JSONComposite name level i cs) w
      = (Ok (JSONComposite name level i (cs ++ new)), w') /\
    built_in_order (make_item level) (enumerate_from idx items) w new w' /\
    map get_name new = map (fun p => array_name (fst p))
                           (enumerate_from idx items) /\
    children_ok level (next_id w) new.
Proof.
  induction 1 as [|item rest Hitem _ IH]; intros idx name i cs w.
  - exists []. simpl. rewrite app_nil_r, advance_0.
    repeat split; constructor.
  - destruct (Hitem (array_name idx) (level + 1) w) as (t & Ht & Hok).
    destruct (IH (idx + 1) name i (cs ++ [t]) (advance w (size t)))
      as (new & Hrun & Hbuilt & Hnames & Hch).
    exists (t :: new). cbn zeta in *.
    rewrite advance_advance in Hrun, Hbuilt.
    assert (Hlen : length (flat_map preorder (t :: new))
                   = (size t + length (flat_map preorder new))%nat)
      by (simpl; rewrite length_app; reflexivity).
    rewrite Hlen. split; [|split; [|split]].
    + simpl. unfold bind at 1. rewrite Ht. simpl. unfold bind at 1. simpl.
      rewrite Hrun, <- app_assoc. reflexivity.
    + econstructor; [exact Ht | exact Hbuilt].
    + simpl. destruct Hok as (Hn & _). rewrite Hn, Hnames. reflexivity.
    + apply children_ok_cons; [|exact Hch].
      destruct Hok as (Hn & Hrest). split; [reflexivity | exact Hrest].
Qed.

Lemma dict_loop_spec level items :
  Forall (fun kv => create_total (snd kv)) items ->
  forall name i cs w, exists new,
    let w' := advance w (length (flat_map preorder new)) in
    dict_loop _create level items (JSONComposite name level i cs) w
      = (Ok (JSONComposite name level i (cs ++ new)), w') /\
    built_in_order (make_entry level) items w new w' /\
    map get_name new = map fst items /\
    children_ok level (next_id w) new.
Proof.
  induction 1 as [|[key value] rest Hitem _ IH]; intros name i cs w.
  - exists []. simpl. rewrite app_nil_r, advance_0.
    repeat split; constructor.
  - destruct (Hitem key (level + 1) w) as (t & Ht & Hok).
    destruct (IH name i (cs ++ [t]) (advance w (size t)))
      as (new & Hrun & Hbuilt & Hnames & Hch).
    exists (t :: new). cbn zeta in *. simpl snd in *.
    rewrite advance_advance in Hrun, Hbuilt.
    assert (Hlen : length (flat_map preorder (t :: new))
                   = (size t + length (flat_map preorder new))%nat)
      by (simpl; rewrite length_app; reflexivity).
    rewrite Hlen. split; [|split; [|split]].
    + simpl. unfold bind at 1. rewrite Ht. simpl. unfold bind at 1. simpl.
      rewrite Hrun, <- app_assoc. reflexivity.
    + econstructor; [exact Ht | exact Hbuilt].
    + simpl. destruct Hok as (Hn & _). rewrite Hn, Hnames. reflexivity.
    + apply children_ok_cons; [|exact Hch].
      destruct Hok as (Hn & Hrest). split; [reflexivity | exact Hrest].
Qed.

Lemma composite_ok name level w new :
  children_ok level (next_id w + 1) new ->
  node_ok name level (next_id w) (JSONComposite name level (next_id w) new).
Proof.
  intros (Hf & Hids). repeat split.
  - unfold size. simpl. rewrite Hids. reflexivity.
  - simpl. apply forallb_forall. intros c Hc.
    rewrite Forall_forall in Hf. destruct (Hf c Hc) as (Hl & Hk).
    rewrite Hl, Z.eqb_refl, Hk. reflexivity.
Qed.

Lemma create_spec obj : create_total obj.
Proof.
  induction obj as [|s|items IH|items IH] using json_ind;
    intros name level w.
  - exists (JSONLeaf name level (next_id w) None). repeat split.
  - exists (JSONLeaf name level (next_id w) (Some (py_str s))).
    repeat split.
  - destruct (list_loop_spec level items IH 0 name (next_id w) []
                (advance w 1)) as (new & Hrun & _ & _ & Hch).
    exists (JSONComposite name level (next_id w) new). cbn zeta in Hrun.
    rewrite advance_advance in Hrun. split.
    + simpl. unfold _create_composite_from_list, JSONComposite_init.
      unfold bind at 1. simpl. exact Hrun.
    + apply composite_ok. exact Hch.
  - destruct (dict_loop_spec level items IH name (next_id w) []
                (advance w 1)) as (new & Hrun & _ & _ & Hch).
    exists (JSONComposite name level (next_id w) new). cbn zeta in Hrun.
    rewrite advance_advance in Hrun. split.
    + simpl. unfold _create_composite_from_dict, JSONComposite_init.
      unfold bind at 1. simpl. exact Hrun.
    + apply composite_ok. exact Hch.
Qed.

(** ** The traversal order *)

Lemma bind_run {A B} (m : M A) (k : A -> M B) w r w' :
  m w = (r, w') ->
  bind m k w = match r with Ok a => k a w' | Raise e => (Raise e, w') end.
Proof. unfold bind. intros ->. reflexivity. Qed.

Section AcceptFacts.
Context {V : Type} `{JSONVisitor V}.

Lemma visit_all_app l1 l2 (v : V) w :
  visit_all (l1 ++ l2) v w = (v' <- visit_all l1 v ;; visit_all l2 v') w.
Proof.
  revert v w; induction l1 as [|n l1 IH]; intros v w; simpl.
  - reflexivity.
  - unfold bind. destruct (visit v n w) as [[v'|e] w']; auto.
Qed.

Lemma accept_visit_all t :
  forall (v : V) w, accept t v w = visit_all (preorder t) v w.
Proof.
  induction t as [name level i cs IH|name level i value]
    using JSONNode_ind; intros v w.
  - simpl.
    destruct (visit_composite v (JSONComposite name level i cs) w)
      as [r w'] eqn:E.
    rewrite !(bind_run _ _ _ _ _ E). destruct r as [v'|e]; auto.
    clear E v w. revert v' w'.
    induction IH as [|c cs Hc _ IHcs]; intros v w; simpl; auto.
    rewrite visit_all_app.
    destruct (accept c v w) as [r w'] eqn:E.
    rewrite (bind_run _ _ _ _ _ E). rewrite Hc in E.
    rewrite (bind_run _ _ _ _ _ E). destruct r; auto.
  - simpl. destruct (visit_leaf v _ w) as [[v'|e] w'] eqn:E;
      rewrite (bind_run _ _ _ _ _ E); reflexivity.
Qed.
End AcceptFacts.

Lemma preorder_head t : exists l, preorder t = t :: l.
Proof. destruct t; simpl; eauto. Qed.

Lemma children_split cs i (c : JSONNode) :
  nth_error cs i = Some c ->
  cs = firstn i cs ++ c :: skipn (S i) cs.
Proof.
  revert cs; induction i as [|i IH]; intros [|x cs] Hc; simpl in *;
    try discriminate.
  - congruence.
  - f_equal. apply IH. exact Hc.
Qed.

Lemma child_of_composite t i c :
  nth_error (get_children t) i = Some c ->
  preorder t = t :: flat_map preorder (get_children t).
Proof. destruct t; simpl; auto. Qed.

(** The subtree at a path is one block of the traversal, starting at the
    path's position. *)
Lemma preorder_block p :
  forall t n, subtree t p = Some n ->
  exists before after,
    preorder t = before ++ preorder n ++ after /\
    length before = position t p.
Proof.
  induction p as [|i q IH]; intros t n Hn; simpl in *.
  - injection Hn as <-. exists [], []. rewrite app_nil_r. auto.
  - destruct (nth_error (get_children t) i) as [c|] eqn:Hc; [|discriminate].
    destruct (IH c n Hn) as (b & a & Hpre & Hlen).
    exists (t :: flat_map preorder (firstn i (get_children t)) ++ b),
           (a ++ flat_map preorder (skipn (S i) (get_children t))).
    split.
    + rewrite (child_of_composite t i c Hc). simpl. f_equal.
      etransitivity;
        [exact (f_equal (flat_map preorder) (children_split _ _ _ Hc))|].
      rewrite flat_map_app. simpl. rewrite Hpre, <- !app_assoc.
      reflexivity.
    + simpl. rewrite length_app, Hlen. reflexivity.
Qed.

Lemma position_nth t p n :
  subtree t p = Some n -> nth_error (preorder t) (position t p) = Some n.
Proof.
  intros Hn. destruct (preorder_block p t n Hn) as (b & a & -> & <-).
  rewrite nth_error_app2, Nat.sub_diag by lia.
  destruct (preorder_head n) as (l & ->). reflexivity.
Qed.

Lemma subtree_app t p q n :
  subtree t p = Some n -> subtree t (p ++ q) = subtree n q.
Proof.
  revert t; induction p as [|i p IH]; intros t Hn; simpl in *.
  - congruence.
  - destruct (nth_error (get_children t) i); [auto | discriminate].
Qed.

Lemma position_app t p q n :
  subtree t p = Some n ->
  position t (p ++ q) = (position t p + position n q)%nat.
Proof.
  revert t; induction p as [|i p IH]; intros t Hn; simpl in *.
  - congruence.
  - destruct (nth_error (get_children t) i); [|discriminate].
    rewrite (IH _ Hn). lia.
Qed.

Lemma position_descendant n q d :
  subtree n q = Some d -> q <> [] -> (0 < position n q)%nat.
Proof.
  destruct q as [|i q]; [congruence|]. simpl.
  destruct (nth_error (get_children n) i); [lia | discriminate].
Qed.

Lemma position_siblings n i j a b :
  nth_error (get_children n) i = Some a ->
  nth_error (get_children n) j = Some b ->
  (i < j)%nat ->
  (position n [i] + size a <= position n [j])%nat.
Proof.
  intros Ha Hb Hij. simpl. rewrite Ha, Hb.
  assert (Hsplit : firstn j (get_children n)
            = firstn i (get_children n)
              ++ a :: firstn (j - S i) (skipn (S i) (get_children n))).
  { rewrite (children_split _ _ _ Ha) at 1.
    rewrite firstn_app, firstn_firstn.
    assert (Hlen : length (firstn i (get_children n)) = i).
    { apply firstn_length_le. apply Nat.lt_le_incl.
      apply nth_error_Some. congruence. }
    rewrite Hlen, Nat.min_r by lia.
    replace (j - i)%nat with (S (j - S i)) by lia. reflexivity. }
  rewrite Hsplit, flat_map_app. simpl. rewrite !length_app.
  unfold size. lia.
Qed.

(** ** Visitors that only update themselves *)

Section PureVisitor.
Context {V : Type} `{JSONVisitor V}.
Variable f : V -> JSONNode -> V.
Hypothesis visit_composite_f :
  forall v n, visit_composite v n = ret (f v n).
Hypothesis visit_leaf_f : forall v n, visit_leaf v n = ret (f v n).

Lemma visit_all_pure nodes :
  forall v w, visit_all nodes v w = (Ok (fold_left f nodes v), w).
Proof.
  induction nodes as [|n nodes IH]; intros v w; simpl; [reflexivity|].
  assert (Hv : visit v n w = (Ok (f v n), w)).
  { destruct n; simpl; [rewrite visit_composite_f | rewrite visit_leaf_f];
      reflexivity. }
  rewrite (bind_run _ _ _ _ _ Hv). apply IH.
Qed.

Lemma accept_pure t v w :
  accept t v w = (Ok (fold_left f (preorder t) v), w).
Proof. rewrite accept_visit_all. apply visit_all_pure. Qed.
End PureVisitor.

(** ** The width analysis *)

Lemma update_grid_width_spec g n :
  GridWidthVisitor.update_grid_width g n
  = GridWidthVisitor.mk (Z.max (GridWidthVisitor.grid_width g) (node_width n)).
Proof.
  unfold GridWidthVisitor.update_grid_width, node_width, prefix_length,
    name_length.
  destruct n as [name level i cs|name level i [value|]]; simpl;
    f_equal; lia.
Qed.

Lemma max_width_max a b nodes :
  max_width (Z.max a b) nodes = Z.max b (max_width a nodes).
Proof. induction nodes as [|n nodes IH]; simpl; lia. Qed.

Lemma fold_update_grid_width nodes :
  forall g,
    GridWidthVisitor.grid_width
      (fold_left GridWidthVisitor.update_grid_width nodes g)
    = max_width (GridWidthVisitor.grid_width g) nodes.
Proof.
  induction nodes as [|n nodes IH]; intros g; simpl; [reflexivity|].
  rewrite IH, update_grid_width_spec. simpl.
  rewrite max_width_max. reflexivity.
Qed.

Lemma accept_grid_width t w :
  exists g,
    accept t GridWidthVisitor.init w = (Ok g, w) /\
    GridWidthVisitor.grid_width g = max_width 16 (preorder t).
Proof.
  eexists. split.
  - apply (accept_pure GridWidthVisitor.update_grid_width); reflexivity.
  - apply fold_update_grid_width.
Qed.

Lemma max_width_floor floor nodes : floor <= max_width floor nodes.
Proof. induction nodes; simpl; lia. Qed.

Lemma max_width_ge floor nodes n :
  In n nodes -> node_width n <= max_width floor nodes.
Proof.
  induction nodes as [|m nodes IH]; simpl; [tauto|].
  intros [->|Hn]; [lia|]. specialize (IH Hn). lia.
Qed.

Lemma max_width_attained floor nodes :
  max_width floor nodes = floor \/
  exists n, In n nodes /\ max_width floor nodes = node_width n.
Proof.
  induction nodes as [|m nodes IH]; simpl; [auto|].
  destruct (Z.max_spec (node_width m) (max_width floor nodes))
    as [[_ ->]|[_ ->]].
  - destruct IH as [IH|(n & Hn & IH)]; [auto|].
    right. exists n. auto.
  - right. exists m. auto.
Qed.

Lemma max_width_le floor nodes bound :
  floor <= bound ->
  (forall n, In n nodes -> node_width n <= bound) ->
  max_width floor nodes <= bound.
Proof.
  intros Hf. induction nodes as [|m nodes IH]; simpl; intros Hn; [exact Hf|].
  apply Z.max_lub; [apply Hn; auto | apply IH; auto].
Qed.

(** C2: the width analysis, run from its initial state over a whole
    tree, leaves the tree and the world alone and ends with [grid_width]
    equal to the maximum of 16 and of [prefix_length + name_length + 2]
    over all nodes, the root included: it is at least 16, at least every
    node's width, and equal to 16 or to the width of some node. *)
Theorem C2_grid_width_is_floored_maximum (t : JSONNode) (w : world) :
  exists g,
    accept t GridWidthVisitor.init w = (Ok g, w) /\
    GridWidthVisitor.grid_width g = max_width 16 (preorder t) /\
    16 <= GridWidthVisitor.grid_width g /\
    node_width t <= GridWidthVisitor.grid_width g /\
    (forall n, In n (preorder t) ->
               node_width n <= GridWidthVisitor.grid_width g) /\
    (GridWidthVisitor.grid_width g = 16 \/
     exists n, In n (preorder t) /\
               GridWidthVisitor.grid_width g = node_width n).
Proof.
  destruct (accept_grid_width t w) as (g & Hrun & Hg).
  exists g. rewrite Hg. split; [exact Hrun|]. split; [reflexivity|].
  split; [apply max_width_floor|].
  split; [|split].
  - apply max_width_ge. destruct (preorder_head t) as (l & ->). left; auto.
  - intros n Hn. apply max_width_ge. exact Hn.
  - apply max_width_attained.
Qed.

Lemma in_preorder_composite n name level i cs :
  In n (preorder (JSONComposite name level i cs)) <->
  n = JSONComposite name level i cs \/
  exists c, In c cs /\ In n (preorder c).
Proof.
  simpl. rewrite in_flat_map. intuition (subst; auto).
Qed.

Ltac widths :=
  unfold node_width, name_length, prefix_length; simpl; lia.

Lemma grows_dominates t t' :
  grows t t' ->
  forall n, In n (preorder t) ->
  exists n', In n' (preorder t') /\ node_width n <= node_width n'.
Proof.
  induction 1 as [name level i cs1 cs2 x
                 |name name' level i cs Hlen
                 |name name' level i v Hlen
                 |name level i v v' Hlen
                 |name level i cs1 cs2 c c' Hg IH]; intros n Hn.
  - apply in_preorder_composite in Hn. destruct Hn as [->|(c & Hc & Hn)].
    + eexists. split; [left; reflexivity|]. widths.
    + exists n. split; [|lia]. apply in_preorder_composite. right.
      exists c. split; [|exact Hn].
      apply in_app_iff in Hc. apply in_app_iff. simpl. tauto.
  - apply in_preorder_composite in Hn. destruct Hn as [->|(c & Hc & Hn)].
    + eexists. split; [left; reflexivity|].
      widths.
    + exists n. split; [|lia]. apply in_preorder_composite. right.
      exists c. auto.
  - destruct Hn as [<-|[]]. eexists. split; [left; reflexivity|].
    widths.
  - destruct Hn as [<-|[]]. eexists. split; [left; reflexivity|].
    widths.
  - apply in_preorder_composite in Hn. destruct Hn as [->|(d & Hd & Hn)].
    + eexists. split; [left; reflexivity|]. widths.
    + apply in_app_iff in Hd. simpl in Hd.
      destruct Hd as [Hd|[<-|Hd]].
      * exists n. split; [|lia]. apply in_preorder_composite. right.
        exists d. split; [|exact Hn]. apply in_app_iff. auto.
      * destruct (IH n Hn) as (n' & Hn' & Hle). exists n'.
        split; [|exact Hle]. apply in_preorder_composite. right.
        exists c'. split; [|exact Hn']. apply in_app_iff. simpl. auto.
      * exists n. split; [|lia]. apply in_preorder_composite. right.
        exists d. split; [|exact Hn]. apply in_app_iff. simpl. auto.
Qed.

Lemma grows_max_width t t' :
  grows t t' -> max_width 16 (preorder t) <= max_width 16 (preorder t').
Proof.
  intros Hg. apply max_width_le; [apply max_width_floor|].
  intros n Hn. destruct (grows_dominates t t' Hg n Hn) as (n' & Hn' & Hle).
  pose proof (max_width_ge 16 _ _ Hn'). lia.
Qed.

(** C8: the width analysis never ends below 16, and when a tree grows
    by one node, or one of its names or non-null leaf values is replaced
    by a longer one, the width computed for the new tree is at least the
    width computed for the old one; so it is after any number of such
    steps. *)
Theorem C8_width_analysis_monotone (w : world) :
  (forall t, exists g,
      accept t GridWidthVisitor.init w = (Ok g, w) /\
      16 <= GridWidthVisitor.grid_width g) /\
  (forall t t', grows t t' ->
     exists g g',
       accept t GridWidthVisitor.init w = (Ok g, w) /\
       accept t' GridWidthVisitor.init w = (Ok g', w) /\
       GridWidthVisitor.grid_width g <= GridWidthVisitor.grid_width g') /\
  (forall t t', clos_refl_trans JSONNode grows t t' ->
     exists g g',
       accept t GridWidthVisitor.init w = (Ok g, w) /\
       accept t' GridWidthVisitor.init w = (Ok g', w) /\
       GridWidthVisitor.grid_width g <= GridWidthVisitor.grid_width g').
Proof.
  assert (Hmono : forall t t',
             max_width 16 (preorder t) <= max_width 16 (preorder t') ->
             exists g g',
               accept t GridWidthVisitor.init w = (Ok g, w) /\
               accept t' GridWidthVisitor.init w = (Ok g', w) /\
               GridWidthVisitor.grid_width g
               <= GridWidthVisitor.grid_width g').
  { intros t t' Hle.
    destruct (accept_grid_width t w) as (g & Hrun & Hg).
    destruct (accept_grid_width t' w) as (g' & Hrun' & Hg').
    exists g, g'. rewrite Hg, Hg'. auto. }
  split; [|split].
  - intros t. destruct (accept_grid_width t w) as (g & Hrun & Hg).
    exists g. split; [exact Hrun|]. rewrite Hg. apply max_width_floor.
  - intros t t' Hgrow. apply Hmono, grows_max_width, Hgrow.
  - intros t t' Hgrow. apply Hmono.
    induction Hgrow as [t t' Hstep|t|t t1 t' _ IH1 _ IH2].
    + apply grows_max_width, Hstep.
    + lia.
    + lia.
Qed.

(** ** The first and last analysis *)

(** C10: a first/last visitor that has visited nothing answers false to
    [is_first] and to [is_last] for every node: both recorded ids are
    still [None], which no node id equals. *)
Theorem C10_fresh_first_last_visitor (node : JSONNode) :
  FirstLastVisitor.first_id FirstLastVisitor.init = None /\
  FirstLastVisitor.last_id FirstLastVisitor.init = None /\
  FirstLastVisitor.is_first FirstLastVisitor.init node = false /\
  FirstLastVisitor.is_last FirstLastVisitor.init node = false.
Proof. repeat split. Qed.

Lemma last_cons_default {A} (a : A) l d : last (a :: l) d = last l a.
Proof.
  revert a d; induction l as [|b l IH]; intros a d; [reflexivity|].
  change (last (a :: b :: l) d) with (last (b :: l) d).
  rewrite (IH b d), (IH b a). reflexivity.
Qed.

Lemma last_map {A B} (f : A -> B) l d : last (map f l) (f d) = f (last l d).
Proof.
  induction l as [|a [|b l] IH]; simpl in *; auto.
Qed.

Lemma last_in {A} (a : A) l : In (last l a) (a :: l).
Proof.
  revert a; induction l as [|b l IH]; intros a; [left; reflexivity|].
  right. rewrite (last_cons_default b l a). apply IH.
Qed.

Lemma fold_visit_visited nodes :
  forall s, FirstLastVisitor.first_visited s = true ->
  fold_left FirstLastVisitor.visit nodes s
  = FirstLastVisitor.mk true (FirstLastVisitor.first_id s)
      (last (map (fun n => Some (get_id n)) nodes)
            (FirstLastVisitor.last_id s)).
Proof.
  induction nodes as [|n nodes IH]; intros s Hs.
  - destruct s; simpl in *; subst; reflexivity.
  - assert (Hv : FirstLastVisitor.visit s n
                 = FirstLastVisitor.mk true (FirstLastVisitor.first_id s)
                     (Some (get_id n))).
    { unfold FirstLastVisitor.visit. rewrite Hs. simpl. rewrite Hs.
      reflexivity. }
    cbn [fold_left map]. rewrite Hv, IH by reflexivity.
    rewrite last_cons_default. reflexivity.
Qed.

Lemma accept_first_last t w :
  exists fl,
    accept t FirstLastVisitor.init w = (Ok fl, w) /\
    FirstLastVisitor.first_id fl = Some (get_id t) /\
    FirstLastVisitor.last_id fl = Some (get_id (last (preorder t) t)).
Proof.
  eexists. split.
  - apply (accept_pure FirstLastVisitor.visit); reflexivity.
  - destruct (preorder_head t) as (l & ->). cbn [fold_left].
    rewrite fold_visit_visited by reflexivity. simpl FirstLastVisitor.first_id.
    split; [reflexivity|]. simpl FirstLastVisitor.last_id.
    rewrite last_cons_default.
    apply (last_map (fun n => Some (get_id n))).
Qed.

Lemma filter_none {A} (f : A -> bool) l :
  (forall x, In x l -> f x = false) -> filter f l = [].
Proof.
  induction l as [|a l IH]; intros Hf; simpl; [reflexivity|].
  rewrite (Hf a) by (left; reflexivity). apply IH.
  intros x Hx. apply Hf. right. exact Hx.
Qed.

Lemma filter_unique_id nodes x :
  NoDup (map get_id nodes) -> In x nodes ->
  filter (fun n => get_id n =? get_id x) nodes = [x].
Proof.
  induction nodes as [|a nodes IH]; intros Hnd Hx; [destruct Hx|].
  simpl in Hnd. inversion Hnd as [|? ? Hnotin Hnd']; subst.
  destruct Hx as [->|Hx]; simpl.
  - rewrite Z.eqb_refl. f_equal. apply filter_none.
    intros y Hy. apply Z.eqb_neq. intros Heq. apply Hnotin.
    rewrite <- Heq. apply in_map. exact Hy.
  - replace (get_id a =? get_id x) with false; [apply IH; auto|].
    symmetry. apply Z.eqb_neq. intros Heq. apply Hnotin.
    rewrite Heq. apply in_map. exact Hx.
Qed.

Lemma sorted_lt_NoDup l : StronglySorted Z.lt l -> NoDup l.
Proof.
  induction 1 as [|a l _ IH Hall]; constructor; auto.
  intros Hin. rewrite Forall_forall in Hall. specialize (Hall a Hin). lia.
Qed.

(** ** Levels *)

Lemma levels_ok_child t i c :
  levels_ok t = true ->
  nth_error (get_children t) i = Some c ->
  get_level c = get_level t + 1 /\ levels_ok c = true.
Proof.
  destruct t as [name level k cs|name level k v]; simpl; intros Hok Hc.
  - rewrite forallb_forall in Hok. apply nth_error_In in Hc.
    specialize (Hok c Hc). apply andb_prop in Hok. destruct Hok as (Hl & Hk).
    apply Z.eqb_eq in Hl. auto.
  - destruct i; discriminate.
Qed.

Lemma levels_ok_subtree p :
  forall t n, levels_ok t = true -> subtree t p = Some n ->
              levels_ok n = true.
Proof.
  induction p as [|i q IH]; intros t n Hok Hn; simpl in Hn.
  - congruence.
  - destruct (nth_error (get_children t) i) as [c|] eqn:Hc; [|discriminate].
    apply (IH c n); [|exact Hn]. eapply levels_ok_child; eauto.
Qed.

Lemma levels_ge t :
  levels_ok t = true ->
  forall n, In n (preorder t) -> get_level t <= get_level n.
Proof.
  induction t as [name level i cs IH|name level i v] using JSONNode_ind;
    intros Hok n Hn.
  - apply in_preorder_composite in Hn. destruct Hn as [->|(c & Hc & Hn)].
    + lia.
    + simpl in Hok. rewrite forallb_forall in Hok.
      specialize (Hok c Hc). apply andb_prop in Hok.
      destruct Hok as (Hl & Hk). apply Z.eqb_eq in Hl.
      rewrite Forall_forall in IH. specialize (IH c Hc Hk n Hn).
      simpl. lia.
  - destruct Hn as [<-|[]]. lia.
Qed.

Lemma levels_below t c n :
  levels_ok t = true -> In c (get_children t) -> In n (preorder c) ->
  get_level t < get_level n.
Proof.
  intros Hok Hc Hn.
  destruct (In_nth_error _ _ Hc) as (i & Hi).
  destruct (levels_ok_child t i c Hok Hi) as (Hl & Hk).
  pose proof (levels_ge c Hk n Hn). lia.
Qed.

Lemma only_root_at_level_0 t :
  levels_ok t = true -> get_level t = 0 ->
  filter is_root (preorder t) = [t].
Proof.
  intros Hok H0.
  assert (Hpre : preorder t = t :: flat_map preorder (get_children t))
    by (destruct t; reflexivity).
  rewrite Hpre. simpl. unfold is_root at 1. rewrite H0. simpl. f_equal.
  apply filter_none. intros n Hn. apply in_flat_map in Hn.
  destruct Hn as (c & Hc & Hn).
  pose proof (levels_below t c n Hok Hc Hn).
  unfold is_root. apply Z.eqb_neq. lia.
Qed.

(** ** The factory *)

Lemma create_facts name level obj w t w' :
  _create name level obj w = (Ok t, w') ->
  node_ok name level (next_id w) t /\ w' = advance w (size t).
Proof.
  intros Hrun. destruct (create_spec obj name level w) as (t0 & Ht0 & Hok).
  rewrite Ht0 in Hrun. injection Hrun as <- <-. auto.
Qed.

Lemma factory_build_inv filepath w t w' :
  factory_build filepath w = (Ok t, w') ->
  exists data,
    files w filepath = Some (Some data) /\
    is_dict_or_list data = true /\
    _create [] 0 data w = (Ok t, w').
Proof.
  unfold factory_build, JSONNodeFactory.init, JSONNodeFactory.create,
    isfile, json_load, bind, raise, ret.
  destruct (files w filepath) as [[data|]|] eqn:Hf; simpl;
    rewrite ?Hf; simpl; try discriminate.
  destruct (is_dict_or_list data) eqn:Hd; simpl; [|discriminate].
  intros Hrun. exists data. auto.
Qed.

(** ** The decimal text of an integer *)
















(** C6: in a tree the factory builds from a document whose top value is
    an object or an array, the root is at level 0, every child is one
    level below its parent, and the root is the only node at level 0. *)
Theorem C6_levels (filepath : pystr) (w w' : world) (t : JSONNode) :
  factory_build filepath w = (Ok t, w') ->
  get_level t = 0 /\
  (forall p i parent child,
      subtree t p = Some parent ->
      nth_error (get_children parent) i = Some child ->
      get_level child = get_level parent + 1) /\
  filter is_root (preorder t) = [t] /\
  length (filter (fun n => get_level n =? 0) (preorder t)) = 1%nat.
Proof.
  intros Hrun. destruct (factory_build_inv _ _ _ _ Hrun) as (data & _ & _ & Hc).
  destruct (create_facts _ _ _ _ _ _ Hc) as ((_ & Hl & _ & Hok) & _).
  split; [exact Hl|]. split; [|split].
  - intros p i parent child Hp Hchild.
    apply (levels_ok_child parent i child); [|exact Hchild].
    apply (levels_ok_subtree p t); assumption.
  - apply only_root_at_level_0; assumption.
  - change (fun n => get_level n =? 0) with is_root.
    rewrite only_root_at_level_0 by assumption. reflexivity.
Qed.

(** C7: the ids of the nodes of a tree built by one call of the factory,
    listed in traversal order, are strictly increasing, hence pairwise
    distinct: they are the counter's values from the call's start on. *)
Theorem C7_ids_follow_traversal (factory : JSONNodeFactory.t) (w w' : world)
    (t : JSONNode) :
  JSONNodeFactory.create factory w = (Ok t, w') ->
  NoDup (map get_id (preorder t)) /\
  StronglySorted Z.lt (map get_id (preorder t)) /\
  map get_id (preorder t) = zseq (next_id w) (size t).
Proof.
  intros Hrun.
  destruct (create_facts _ _ _ _ _ _ Hrun) as ((_ & _ & Hids & _) & _).
  rewrite Hids. split; [|split; [|reflexivity]].
  - apply sorted_lt_NoDup, zseq_sorted.
  - apply zseq_sorted.
Qed.

(** ** The renderer *)

Lemma render_visit_all rv nodes :
  forall w,
    visit_all nodes rv w
    = (Ok rv,
       mkWorld (next_id w)
         (stdout w ++ map (RenderVisitor.line rv)
                          (filter (fun n => negb (is_root n)) nodes))
         (files w)).
Proof.
  induction nodes as [|n nodes IH]; intros w.
  - simpl. rewrite app_nil_r. destruct w; reflexivity.
  - assert (Hv : visit rv n w
                 = (Ok rv, if is_root n then w
                           else mkWorld (next_id w)
                                  (stdout w ++ [RenderVisitor.line rv n])
                                  (files w))).
    { destruct n; simpl; unfold RenderVisitor.render_node, bind;
        destruct (is_root _); reflexivity. }
    cbn [visit_all]. rewrite (bind_run _ _ _ _ _ Hv), IH.
    cbn [filter]. destruct (is_root n); simpl; [reflexivity|].
    rewrite <- app_assoc. reflexivity.
Qed.

Lemma render_accept rv t w :
  accept t rv w
  = (Ok rv,
     mkWorld (next_id w)
       (stdout w ++ map (RenderVisitor.line rv)
                        (filter (fun n => negb (is_root n)) (preorder t)))
       (files w)).
Proof. rewrite accept_visit_all. apply render_visit_all. Qed.

(** The length of a rendered line, for one-character icons and a node
    that is not the first visited: the node's width, three more when the
    node is the last visited and at level 1, and at least the grid
    width. *)
Lemma line_length rv n :
  len (leaf_icon (RenderVisitor.icon_family rv)) = 1 ->
  len (composite_icon (RenderVisitor.icon_family rv)) = 1 ->
  FirstLastVisitor.is_first (RenderVisitor.fl_visitor rv) n = false ->
  1 <= get_level n ->
  len (RenderVisitor.line rv n)
  = Z.max (node_width n
           + (if FirstLastVisitor.is_last (RenderVisitor.fl_visitor rv) n
                 && (get_level n =? 1)
              then 3 else 0))
          (RenderVisitor.grid_width rv) .
Proof.
  intros Hleaf Hcomp Hfirst Hlevel.
  unfold RenderVisitor.line. rewrite Hfirst.
  unfold node_width, name_length, prefix_length.
  rewrite !Z.gtb_ltb.
  destruct (FirstLastVisitor.is_last _ n);
    destruct (Z.eqb_spec (get_level n) 1) as [E1|E1];
    destruct (Z.ltb_spec 2 (get_level n)) as [E2|E2];
    destruct (Z.ltb_spec 1 (get_level n)) as [E3|E3];
    try lia;
    destruct n as [name level i cs|name level i [value|]];
    cbn [is_leaf get_value get_name get_level andb] in *;
    repeat rewrite ?len_app, ?len_ljust, ?len_mul;
    rewrite ?Hleaf, ?Hcomp;
    change (len []) with 0; change (len (lit "* ")) with 2;
    change (len (lit " *")) with 2; change (len (lit ": ")) with 2;
    change (len (lit " ")) with 1;
    change (len [BOX_H; BOX_H]) with 2; change (len [BOX_VR; BOX_H]) with 2;
    change (len [BOX_V; SPACE]) with 2; change (len [BOX_H; BOX_VL]) with 2;
    change (len [BOX_H; BOX_UH; BOX_H]) with 3;
    change (len [SPACE; BOX_V; SPACE]) with 3;
    change (len [SPACE; BOX_VR; BOX_H]) with 3;
    pose proof (len_nonneg name); try pose proof (len_nonneg value); lia.
Qed.

Lemma first_last_of_distinct t w :
  NoDup (map get_id (preorder t)) ->
  exists fl,
    accept t FirstLastVisitor.init w = (Ok fl, w) /\
    filter (FirstLastVisitor.is_first fl) (preorder t) = [t] /\
    filter (FirstLastVisitor.is_last fl) (preorder t)
    = [last (preorder t) t].
Proof.
  intros Hnd. destruct (accept_first_last t w) as (fl & Hrun & Hf & Hl).
  exists fl. split; [exact Hrun|].
  unfold FirstLastVisitor.is_first, FirstLastVisitor.is_last.
  rewrite Hf, Hl. simpl. split; apply filter_unique_id; auto.
  - destruct (preorder_head t) as (l & ->). left; reflexivity.
  - destruct (preorder_head t) as (l & Hpre). rewrite Hpre.
    rewrite last_cons_default. apply last_in.
Qed.

Lemma in_filter_singleton {A} (f : A -> bool) l x y :
  filter f l = [y] -> In x l -> f x = true -> x = y.
Proof.
  intros Hf Hx Hfx.
  assert (Hin : In x (filter f l)) by (apply filter_In; auto).
  rewrite Hf in Hin. destruct Hin as [<-|[]]. reflexivity.
Qed.

(** C3: in a tree built by the factory, once the first/last analysis has
    run over it, the root is the one node for which [is_first] holds and
    the last node of the traversal the one node for which [is_last]
    holds; the renderer prints one line for each node that is not the
    root, in traversal order, and [is_first] is false for each of
    them. *)
Theorem C3_first_is_root_last_is_terminal (factory : JSONNodeFactory.t)
    (w w' : world) (t : JSONNode) :
  JSONNodeFactory.create factory w = (Ok t, w') ->
  forall w1, exists fl,
    accept t FirstLastVisitor.init w1 = (Ok fl, w1) /\
    filter (FirstLastVisitor.is_first fl) (preorder t) = [t] /\
    filter (FirstLastVisitor.is_last fl) (preorder t)
    = [last (preorder t) t] /\
    forall grid_width icons w2,
      let rv := RenderVisitor.mk grid_width fl icons in
      let emitted := filter (fun n => negb (is_root n)) (preorder t) in
      accept t rv w2
      = (Ok rv,
         mkWorld (next_id w2)
           (stdout w2 ++ map (RenderVisitor.line rv) emitted) (files w2)) /\
      Forall (fun n => FirstLastVisitor.is_first fl n = false) emitted.
Proof.
  intros Hrun w1.
  destruct (create_facts _ _ _ _ _ _ Hrun) as ((_ & Hlevel & Hids & _) & _).
  assert (Hnd : NoDup (map get_id (preorder t)))
    by (rewrite Hids; apply sorted_lt_NoDup, zseq_sorted).
  destruct (first_last_of_distinct t w1 Hnd) as (fl & Hfl & Hfirst & Hlast).
  exists fl. split; [exact Hfl|]. split; [exact Hfirst|].
  split; [exact Hlast|]. intros grid_width icons w2 rv emitted. split.
  - apply render_accept.
  - apply Forall_forall. intros n Hn. apply filter_In in Hn.
    destruct Hn as (Hn & Hroot).
    destruct (FirstLastVisitor.is_first fl n) eqn:E; [|reflexivity].
    rewrite (in_filter_singleton _ _ _ _ Hfirst Hn E) in Hroot.
    unfold is_root in Hroot. rewrite Hlevel in Hroot. discriminate.
Qed.

(** ** A document whose top value is a scalar *)

(** C9: when the file parses to a value that is neither a mapping nor a
    sequence, [JSONNodeFactory(filepath)] raises the invalid-root
    exception and leaves the world as it was, so no node has been built
    and no line printed; whatever was to follow the construction is not
    run, and [create_styled_json] ends with the same exception in the
    same world. *)
Theorem C9_scalar_document_rejected (filepath : pystr) (w : world)
    (data : json) :
  files w filepath = Some (Some data) ->
  is_dict_or_list data = false ->
  JSONNodeFactory.init filepath w
  = (Raise (FJEException msg_invalid_root), w) /\
  (forall (B : Type) (k : JSONNodeFactory.t -> M B),
      (factory <- JSONNodeFactory.init filepath ;; k factory) w
      = (Raise (FJEException msg_invalid_root), w)) /\
  (forall self icon_family style icons style_factory,
      lookup (StyledJSONBuilder._icon_families self) icon_family
      = Some icons ->
      lookup (StyledJSONBuilder._styles_factory self) style
      = Some style_factory ->
      StyledJSONBuilder.create_styled_json self filepath icon_family style w
      = (Raise (FJEException msg_invalid_root), w)).
Proof.
  intros Hfile Hdata.
  assert (Hinit : JSONNodeFactory.init filepath w
                  = (Raise (FJEException msg_invalid_root), w)).
  { unfold JSONNodeFactory.init, isfile, json_load, bind.
    rewrite Hfile. simpl. rewrite Hfile, Hdata. reflexivity. }
  split; [exact Hinit|]. split.
  - intros B k. rewrite (bind_run _ _ _ _ _ Hinit). reflexivity.
  - intros self icon_family style icons style_factory Hicons Hstyle.
    unfold StyledJSONBuilder.create_styled_json. rewrite Hicons, Hstyle.
    unfold factory_build.
    assert (Hbuild : (factory <- JSONNodeFactory.init filepath;;
                      JSONNodeFactory.create factory) w
                     = (Raise (FJEException msg_invalid_root), w))
      by (rewrite (bind_run _ _ _ _ _ Hinit); reflexivity).
    rewrite (bind_run _ _ _ _ _ Hbuild). reflexivity.
Qed.

(** C4: [accept] runs the visits of the nodes in the order of
    [preorder]: the node at a path is visited at the path's position, a
    node before each of its descendants, and a child's whole subtree
    before the next child. *)
Theorem C4_accept_is_preorder (V : Type) (visitor_of_V : JSONVisitor V)
    (t : JSONNode) :
  (forall (v : V) w, accept t v w = visit_all (preorder t) v w) /\
  (forall name level i cs,
      preorder (JSONComposite name level i cs)
      = JSONComposite name level i cs :: concat (map preorder cs)) /\
  (forall p n, subtree t p = Some n ->
               nth_error (preorder t) (position t p) = Some n) /\
  (forall p q n d,
      subtree t p = Some n -> subtree n q = Some d -> q <> [] ->
      subtree t (p ++ q) = Some d /\
      (position t p < position t (p ++ q))%nat) /\
  (forall p n i j a b,
      subtree t p = Some n ->
      nth_error (get_children n) i = Some a ->
      nth_error (get_children n) j = Some b ->
      (i < j)%nat ->
      (position t (p ++ [i]) + size a <= position t (p ++ [j]))%nat).
Proof.
  split; [apply accept_visit_all|]. split; [|split; [|split]].
  - intros. simpl. rewrite flat_map_concat_map. reflexivity.
  - intros p n. apply position_nth.
  - intros p q n d Hn Hd Hq. split.
    + rewrite (subtree_app t p q n Hn). exact Hd.
    + rewrite (position_app t p q n Hn).
      pose proof (position_descendant n q d Hd Hq). lia.
  - intros p n i j a b Hn Ha Hb Hij.
    rewrite !(position_app t p _ n Hn).
    pose proof (position_siblings n i j a b Ha Hb Hij). lia.
Qed.

(** ** The width of the rendered lines *)

Lemma star_init t icons w :
  exists g fl,
    StarStyledJSONNode.init t icons w
    = (Ok (StarStyledJSONNode.mk g fl icons t), w) /\
    accept t GridWidthVisitor.init w = (Ok g, w) /\
    accept t FirstLastVisitor.init w = (Ok fl, w).
Proof.
  destruct (accept_grid_width t w) as (g & Hg & _).
  destruct (accept_first_last t w) as (fl & Hfl & _).
  exists g, fl. split; [|auto]. unfold StarStyledJSONNode.init.
  rewrite (bind_run _ _ _ _ _ Hg). rewrite (bind_run _ _ _ _ _ Hfl).
  reflexivity.
Qed.

(** In a tree built by the factory and rendered with one-character
    icons, the line of every node but the root is as long as the grid is
    wide, except for a last-visited node at level 1, whose line is three
    characters longer than the node's width when that exceeds the grid
    width. *)
Lemma star_line_lengths (factory : JSONNodeFactory.t) (w w' : world)
    (t : JSONNode) (icons : IconFamily) :
  JSONNodeFactory.create factory w = (Ok t, w') ->
  len (leaf_icon icons) = 1 ->
  len (composite_icon icons) = 1 ->
  forall w1, exists styled,
    StarStyledJSONNode.init t icons w1 = (Ok styled, w1) /\
    let fl := StarStyledJSONNode.fl_visitor styled in
    let G := GridWidthVisitor.grid_width
               (StarStyledJSONNode.grid_width_visitor styled) in
    let rv := RenderVisitor.mk G fl icons in
    forall n, In n (preorder t) -> is_root n = false ->
      len (RenderVisitor.line rv n)
      = if FirstLastVisitor.is_last fl n && (get_level n =? 1)
        then Z.max (node_width n + 3) G
        else G.
Proof.
  intros Hrun Hleaf Hcomp w1.
  destruct (star_init t icons w1) as (g & fl & Hinit & Hg & Hfl).
  exists (StarStyledJSONNode.mk g fl icons t). split; [exact Hinit|].
  cbn zeta. simpl StarStyledJSONNode.fl_visitor.
  simpl StarStyledJSONNode.grid_width_visitor.
  intros n Hn Hroot.
  destruct (accept_grid_width t w1) as (g0 & Hg0 & Hmax).
  rewrite Hg in Hg0. injection Hg0 as <-.
  pose proof (max_width_ge 16 _ n Hn) as Hge. rewrite <- Hmax in Hge.
  destruct (create_facts _ _ _ _ _ _ Hrun) as ((_ & Hlevel & Hids & Hok) & _).
  pose proof (levels_ge t Hok n Hn) as Hlv. rewrite Hlevel in Hlv.
  unfold is_root in Hroot. apply Z.eqb_neq in Hroot.
  assert (Hnd : NoDup (map get_id (preorder t)))
    by (rewrite Hids; apply sorted_lt_NoDup, zseq_sorted).
  destruct (first_last_of_distinct t w1 Hnd) as (fl0 & Hfl0 & Hfirst & _).
  rewrite Hfl in Hfl0. injection Hfl0 as <-.
  assert (Hnf : FirstLastVisitor.is_first fl n = false).
  { destruct (FirstLastVisitor.is_first fl n) eqn:E; [|reflexivity].
    rewrite (in_filter_singleton _ _ _ _ Hfirst Hn E) in Hroot. lia. }
  rewrite line_length; simpl; auto; [|lia].
  destruct (FirstLastVisitor.is_last fl n && (get_level n =? 1)); lia.
Qed.

(** ** Runs on the two documents *)

Example of_int_examples :
  of_int 0 = lit "0" /\ of_int 10 = lit "10" /\ of_int (-7) = lit "-7".
Proof. repeat split. Qed.

Example printer_a_b :
  exists w',
    accept tree_a_b (tt : JSONPrinterVisitor.t) (one_file doc_a_b)
    = (Ok tt, w') /\
    stdout w'
    = [ lit "Composite:  Level: 0";
        lit "Leaf: a Level: 1 Value: 1";
        lit "Composite: b Level: 1";
        lit "Leaf: Array[0] Level: 2 Value: 2";
        lit "Leaf: Array[1] Level: 2 Value: None" ].
Proof. eexists. split; reflexivity. Qed.

Example build_a_b :
  factory_build (lit "in.json") (one_file doc_a_b)
  = (Ok tree_a_b, advance (one_file doc_a_b) 5).
Proof. reflexivity. Qed.

Example build_a :
  factory_build (lit "in.json") (one_file doc_a)
  = (Ok tree_a, advance (one_file doc_a) 2).
Proof. reflexivity. Qed.

Example preorder_a_b :
  map get_name (preorder tree_a_b)
  = [[]; lit "a"; lit "b"; lit "Array[0]"; lit "Array[1]"].
Proof. reflexivity. Qed.

Example render_a_b :
  exists styled w',
    StarStyledJSONNode.init tree_a_b default_icons (one_file doc_a_b)
    = (Ok styled, one_file doc_a_b) /\
    GridWidthVisitor.grid_width
      (StarStyledJSONNode.grid_width_visitor styled) = 24 /\
    StarStyledJSONNode.render styled (one_file doc_a_b) = (Ok tt, w') /\
    map len (stdout w') = [24; 24; 24; 24].
Proof. do 2 eexists. repeat split. Qed.

Example render_empty_object :
  exists root styled w1,
    factory_build (lit "in.json") (one_file (JDict [])) = (Ok root, w1) /\
    StarStyledJSONNode.init root default_icons w1 = (Ok styled, w1) /\
    StarStyledJSONNode.render styled w1 = (Ok tt, w1).
Proof. do 3 eexists. repeat split. Qed.

(** C1, at the document [{"a": 1}] with the default icons: the grid
    width computed over the tree is 16, and the one line printed, for
    the leaf [a], is 17 characters long.  The leaf is the last node
    visited and sits at level 1, where the renderer puts a joint of
    three characters that the width analysis does not count. *)
Theorem C1_last_line_at_level_1_too_long :
  exists styled w' line,
    factory_build (lit "in.json") (one_file doc_a)
    = (Ok tree_a, advance (one_file doc_a) 2) /\
    StarStyledJSONNode.init tree_a default_icons (advance (one_file doc_a) 2)
    = (Ok styled, advance (one_file doc_a) 2) /\
    GridWidthVisitor.grid_width
      (StarStyledJSONNode.grid_width_visitor styled) = 16 /\
    StarStyledJSONNode.render styled (advance (one_file doc_a) 2)
    = (Ok tt, w') /\
    stdout w' = [line] /\
    len line = 17.
Proof. do 3 eexists. repeat split. Qed.

(** ** The theorems at concrete inputs *)

Lemma C3_first_is_root_last_is_terminal_witness :
  JSONNodeFactory.create (JSONNodeFactory.mk doc_a_b) (one_file doc_a_b)
  = (Ok tree_a_b, advance (one_file doc_a_b) 5) /\
  exists fl,
    accept tree_a_b FirstLastVisitor.init (one_file doc_a_b)
    = (Ok fl, one_file doc_a_b) /\
    filter (FirstLastVisitor.is_first fl) (preorder tree_a_b) = [tree_a_b].
Proof.
  split; [reflexivity|].
  destruct (C3_first_is_root_last_is_terminal
              (JSONNodeFactory.mk doc_a_b) (one_file doc_a_b)
              (advance (one_file doc_a_b) 5) tree_a_b eq_refl
              (one_file doc_a_b)) as (fl & Hrun & Hfirst & _).
  exists fl. split; assumption.
Defined.

Lemma C6_levels_witness :
  factory_build (lit "in.json") (one_file doc_a_b)
  = (Ok tree_a_b, advance (one_file doc_a_b) 5) /\
  get_level tree_a_b = 0 /\
  filter is_root (preorder tree_a_b) = [tree_a_b].
Proof.
  split; [reflexivity|].
  destruct (C6_levels (lit "in.json") (one_file doc_a_b)
              (advance (one_file doc_a_b) 5) tree_a_b eq_refl)
    as (H0 & _ & Hroot & _).
  split; assumption.
Defined.

Lemma C7_ids_follow_traversal_witness :
  JSONNodeFactory.create (JSONNodeFactory.mk doc_a_b) (one_file doc_a_b)
  = (Ok tree_a_b, advance (one_file doc_a_b) 5) /\
  StronglySorted Z.lt (map get_id (preorder tree_a_b)).
Proof.
  split; [reflexivity|].
  exact (proj1 (proj2 (C7_ids_follow_traversal
                         (JSONNodeFactory.mk doc_a_b) (one_file doc_a_b)
                         (advance (one_file doc_a_b) 5) tree_a_b eq_refl))).
Defined.

Lemma C8_width_analysis_monotone_witness :
  grows tree_a
    (JSONComposite [] 0 0
       ([] ++ JSONLeaf (lit "longer") 1 2 None
           :: [JSONLeaf (lit "a") 1 1 (Some (lit "1"))])) /\
  exists g g',
    accept tree_a GridWidthVisitor.init (one_file doc_a)
    = (Ok g, one_file doc_a) /\
    accept (JSONComposite [] 0 0
              ([] ++ JSONLeaf (lit "longer") 1 2 None
                  :: [JSONLeaf (lit "a") 1 1 (Some (lit "1"))]))
      GridWidthVisitor.init (one_file doc_a)
    = (Ok g', one_file doc_a) /\
    GridWidthVisitor.grid_width g <= GridWidthVisitor.grid_width g'.
Proof.
  split.
  - exact (grows_add [] 0 0 [] [JSONLeaf (lit "a") 1 1 (Some (lit "1"))]
             (JSONLeaf (lit "longer") 1 2 None)).
  - exact (proj1 (proj2 (C8_width_analysis_monotone (one_file doc_a))) _ _
             (grows_add [] 0 0 [] [JSONLeaf (lit "a") 1 1 (Some (lit "1"))]
                   (JSONLeaf (lit "longer") 1 2 None))).
Defined.

Lemma C9_scalar_document_rejected_witness :
  files (one_file (JScalar (PyStr (lit "hello")))) (lit "in.json")
  = Some (Some (JScalar (PyStr (lit "hello")))) /\
  is_dict_or_list (JScalar (PyStr (lit "hello"))) = false /\
  JSONNodeFactory.init (lit "in.json")
    (one_file (JScalar (PyStr (lit "hello"))))
  = (Raise (FJEException msg_invalid_root),
     one_file (JScalar (PyStr (lit "hello")))).
Proof.
  split; [reflexivity|]. split; [reflexivity|].
  exact (proj1 (C9_scalar_document_rejected (lit "in.json")
                  (one_file (JScalar (PyStr (lit "hello"))))
                  (JScalar (PyStr (lit "hello"))) eq_refl eq_refl)).
Defined.

(** ** Strings as keys *)

Lemma eqb_eq a : forall b, eqb a b = true <-> a = b.
Proof.
  induction a as [|x a IH]; intros [|y b]; simpl; split;
    try discriminate; try reflexivity.
  - intros H. apply andb_prop in H. destruct H as (Hx & Hab).
    apply N.eqb_eq in Hx. apply IH in Hab. congruence.
  - intros H. injection H as -> ->. rewrite N.eqb_refl. simpl.
    apply IH. reflexivity.
Qed.

Lemma eqb_refl a : eqb a a = true.
Proof. apply eqb_eq. reflexivity. Qed.

Lemma eqb_neq a b : eqb a b = false <-> a <> b.
Proof.
  destruct (eqb a b) eqn:E; split.
  - discriminate.
  - intros H. apply eqb_eq in E. contradiction.
  - intros _ H. apply eqb_eq in H. congruence.
  - reflexivity.
Qed.

Lemma lookup_in {A} (d : list (pystr * A)) key :
  In key (map fst d) <-> exists v, lookup d key = Some v.
Proof.
  induction d as [|[k v] d IH]; simpl.
  - split; [tauto | intros (v & H); discriminate].
  - destruct (eqb k key) eqn:E.
    + apply eqb_eq in E. split; eauto.
    + apply eqb_neq in E. rewrite <- IH. tauto.
Qed.

Lemma lookup_not_in {A} (d : list (pystr * A)) key :
  ~ In key (map fst d) <-> lookup d key = None.
Proof.
  rewrite lookup_in. destruct (lookup d key) as [v|]; split; try congruence.
  - intros H. exfalso. apply H. eauto.
  - intros _ (v & H). discriminate.
Qed.

Lemma lookup_dict_set_same {A} (d : list (pystr * A)) key value :
  lookup (dict_set d key value) key = Some value.
Proof.
  induction d as [|[k v] d IH]; simpl.
  - rewrite eqb_refl. reflexivity.
  - destruct (eqb k key) eqn:E; simpl; rewrite E; auto.
Qed.

Lemma lookup_dict_set_other {A} (d : list (pystr * A)) key value other :
  other <> key -> lookup (dict_set d key value) other = lookup d other.
Proof.
  intros Hne. induction d as [|[k v] d IH]; simpl.
  - replace (eqb key other) with false; [reflexivity|].
    symmetry. apply eqb_neq. congruence.
  - destruct (eqb k key) eqn:E; simpl.
    + apply eqb_eq in E. subst k.
      replace (eqb key other) with false; [reflexivity|].
      symmetry. apply eqb_neq. congruence.
    + destruct (eqb k other); auto.
Qed.

Lemma dict_set_keys {A} (d : list (pystr * A)) key value :
  map fst (dict_set d key value)
  = match lookup d key with
    | Some _ => map fst d
    | None => map fst d ++ [key]
    end.
Proof.
  induction d as [|[k v] d IH]; simpl; [reflexivity|].
  destruct (eqb k key) eqn:E; simpl; [reflexivity|].
  rewrite IH. destruct (lookup d key); reflexivity.
Qed.

(** ** Errors of [create_styled_json] *)

(** X1: [create_styled_json] checks the icon family first, the style
    second and the file last, and each failure leaves the world as it
    was: an unknown icon family is reported whatever the style and the
    file are, an unknown style whatever the file is, and a missing file
    only when both names are known. *)
Theorem X1_create_styled_json_error_order (self : StyledJSONBuilder.t)
    (filepath icon_family style : pystr) (w : world) :
  (lookup (StyledJSONBuilder._icon_families self) icon_family = None ->
   StyledJSONBuilder.create_styled_json self filepath icon_family style w
   = (Raise (FJEException (msg_no_icon_family icon_family)), w)) /\
  (forall icons,
     lookup (StyledJSONBuilder._icon_families self) icon_family
     = Some icons ->
     lookup (StyledJSONBuilder._styles_factory self) style = None ->
     StyledJSONBuilder.create_styled_json self filepath icon_family style w
     = (Raise (FJEException (msg_no_style style)), w)) /\
  (forall icons style_factory,
     lookup (StyledJSONBuilder._icon_families self) icon_family
     = Some icons ->
     lookup (StyledJSONBuilder._styles_factory self) style
     = Some style_factory ->
     (files w filepath = None ->
      StyledJSONBuilder.create_styled_json self filepath icon_family style w
      = (Raise (FJEException (msg_no_file filepath)), w)) /\
     (files w filepath = Some None ->
      StyledJSONBuilder.create_styled_json self filepath icon_family style w
      = (Raise OtherError, w))).
Proof.
  unfold StyledJSONBuilder.create_styled_json.
  split; [|split].
  - intros ->. reflexivity.
  - intros icons -> ->. reflexivity.
  - intros icons style_factory -> ->.
    unfold factory_build, JSONNodeFactory.init, isfile, json_load, bind.
    split; intros Hf; rewrite Hf; simpl; rewrite ?Hf; reflexivity.
Qed.

(** X2: the names [get_available_icon_families] and
    [get_available_styles] list are exactly the names
    [create_styled_json] finds: a name that is listed is found, and with
    a name that is not listed the call raises the unknown-family (or,
    the family being listed, the unknown-style) exception. *)
Theorem X2_available_names_are_the_accepted_ones
    (self : StyledJSONBuilder.t) (filepath icon_family style : pystr)
    (w : world) :
  (In icon_family (StyledJSONBuilder.get_available_icon_families self) <->
   exists icons,
     lookup (StyledJSONBuilder._icon_families self) icon_family
     = Some icons) /\
  (In style (StyledJSONBuilder.get_available_styles self) <->
   exists style_factory,
     lookup (StyledJSONBuilder._styles_factory self) style
     = Some style_factory) /\
  (~ In icon_family (StyledJSONBuilder.get_available_icon_families self) ->
   StyledJSONBuilder.create_styled_json self filepath icon_family style w
   = (Raise (FJEException (msg_no_icon_family icon_family)), w)) /\
  (In icon_family (StyledJSONBuilder.get_available_icon_families self) ->
   ~ In style (StyledJSONBuilder.get_available_styles self) ->
   StyledJSONBuilder.create_styled_json self filepath icon_family style w
   = (Raise (FJEException (msg_no_style style)), w)).
Proof.
  unfold StyledJSONBuilder.get_available_icon_families,
    StyledJSONBuilder.get_available_styles.
  split; [apply lookup_in|]. split; [apply lookup_in|].
  unfold StyledJSONBuilder.create_styled_json. split.
  - intros Hn. apply lookup_not_in in Hn. rewrite Hn. reflexivity.
  - intros Hi Hs. apply lookup_in in Hi. destruct Hi as (icons & ->).
    apply lookup_not_in in Hs. rewrite Hs. reflexivity.
Qed.

(** ** One node for each value, and the ids of a second tree *)

Lemma preorder_shift_ids k t :
  preorder (shift_ids k t) = map (shift_ids k) (preorder t).
Proof.
  induction t as [name level i cs IH|name level i v] using JSONNode_ind;
    simpl; [|reflexivity].
  f_equal. induction IH as [|c cs Hc _ IHcs]; simpl; [reflexivity|].
  rewrite map_app, Hc, IHcs. reflexivity.
Qed.

Lemma size_shift_ids k t : size (shift_ids k t) = size t.
Proof. unfold size. rewrite preorder_shift_ids. apply length_map. Qed.

Lemma get_id_shift_ids k t : get_id (shift_ids k t) = get_id t + k.
Proof. destruct t; reflexivity. Qed.

Lemma next_id_advance w n : next_id (advance w n) = next_id w + Z.of_nat n.
Proof. reflexivity. Qed.

Lemma list_loop_twice level items :
  Forall create_twice items ->
  forall idx name i i2 cs cs2 w w2, exists new,
    let n := length (flat_map preorder new) in
    list_loop _create level items idx (JSONComposite name level i cs) w
    = (Ok (JSONComposite name level i (cs ++ new)), advance w n) /\
    list_loop _create level items idx (JSONComposite name level i2 cs2) w2
    = (Ok (JSONComposite name level i2
             (cs2 ++ map (shift_ids (next_id w2 - next_id w)) new)),
       advance w2 n) /\
    n = list_sum (map json_size items).
Proof.
  induction 1 as [|item rest Hitem _ IH]; intros idx name i i2 cs cs2 w w2.
  - exists []. simpl. rewrite !app_nil_r, !advance_0. auto.
  - destruct (Hitem (array_name idx) (level + 1) w w2)
      as (t & Ht & Ht2 & Hsize).
    destruct (IH (idx + 1) name i i2 (cs ++ [t])
                (cs2 ++ [shift_ids (next_id w2 - next_id w) t])
                (advance w (size t)) (advance w2 (size t)))
      as (new & Hrun & Hrun2 & Hn).
    exists (t :: new). cbn zeta in *.
    rewrite !advance_advance in Hrun, Hrun2.
    rewrite !next_id_advance in Hrun2.
    replace (next_id w2 + Z.of_nat (size t) - (next_id w + Z.of_nat (size t)))
      with (next_id w2 - next_id w) in Hrun2 by lia.
    assert (Hlen : length (flat_map preorder (t :: new))
                   = (size t + length (flat_map preorder new))%nat)
      by (simpl; rewrite length_app; reflexivity).
    rewrite Hlen. split; [|split].
    + simpl. rewrite (bind_run _ _ _ _ _ Ht). simpl.
      unfold bind at 1. simpl. rewrite Hrun, <- app_assoc. reflexivity.
    + simpl. rewrite (bind_run _ _ _ _ _ Ht2). simpl.
      unfold bind at 1. simpl. rewrite Hrun2, <- app_assoc. reflexivity.
    + simpl. rewrite Hn, Hsize. reflexivity.
Qed.

Lemma dict_loop_twice level items :
  Forall (fun kv => create_twice (snd kv)) items ->
  forall name i i2 cs cs2 w w2, exists new,
    let n := length (flat_map preorder new) in
    dict_loop _create level items (JSONComposite name level i cs) w
    = (Ok (JSONComposite name level i (cs ++ new)), advance w n) /\
    dict_loop _create level items (JSONComposite name level i2 cs2) w2
    = (Ok (JSONComposite name level i2
             (cs2 ++ map (shift_ids (next_id w2 - next_id w)) new)),
       advance w2 n) /\
    n = list_sum (map (fun kv => json_size (snd kv)) items).
Proof.
  induction 1 as [|[key value] rest Hitem _ IH];
    intros name i i2 cs cs2 w w2.
  - exists []. simpl. rewrite !app_nil_r, !advance_0. auto.
  - destruct (Hitem key (level + 1) w w2) as (t & Ht & Ht2 & Hsize).
    destruct (IH name i i2 (cs ++ [t])
                (cs2 ++ [shift_ids (next_id w2 - next_id w) t])
                (advance w (size t)) (advance w2 (size t)))
      as (new & Hrun & Hrun2 & Hn).
    exists (t :: new). cbn zeta in *. simpl snd in *.
    rewrite !advance_advance in Hrun, Hrun2.
    rewrite !next_id_advance in Hrun2.
    replace (next_id w2 + Z.of_nat (size t) - (next_id w + Z.of_nat (size t)))
      with (next_id w2 - next_id w) in Hrun2 by lia.
    assert (Hlen : length (flat_map preorder (t :: new))
                   = (size t + length (flat_map preorder new))%nat)
      by (simpl; rewrite length_app; reflexivity).
    rewrite Hlen. split; [|split].
    + simpl. rewrite (bind_run _ _ _ _ _ Ht). simpl.
      unfold bind at 1. simpl. rewrite Hrun, <- app_assoc. reflexivity.
    + simpl. rewrite (bind_run _ _ _ _ _ Ht2). simpl.
      unfold bind at 1. simpl. rewrite Hrun2, <- app_assoc. reflexivity.
    + simpl. rewrite Hn, Hsize. reflexivity.
Qed.

Lemma create_twice_all obj : create_twice obj.
Proof.
  induction obj as [|s|items IH|items IH] using json_ind;
    intros name level w w2.
  - exists (JSONLeaf name level (next_id w) None). repeat split.
    cbn [shift_ids].
    replace (next_id w + (next_id w2 - next_id w)) with (next_id w2)
      by lia.
    reflexivity.
  - exists (JSONLeaf name level (next_id w) (Some (py_str s))).
    repeat split.
    cbn [shift_ids].
    replace (next_id w + (next_id w2 - next_id w)) with (next_id w2)
      by lia.
    reflexivity.
  - destruct (list_loop_twice level items IH 0 name (next_id w)
                (next_id w2) [] [] (advance w 1) (advance w2 1))
      as (new & Hrun & Hrun2 & Hn).
    exists (JSONComposite name level (next_id w) new). cbn zeta in *.
    rewrite !advance_advance in Hrun, Hrun2.
    rewrite !next_id_advance in Hrun2.
    replace (next_id w2 + Z.of_nat 1 - (next_id w + Z.of_nat 1))
      with (next_id w2 - next_id w) in Hrun2 by lia.
    split; [|split].
    + simpl. unfold _create_composite_from_list, JSONComposite_init.
      unfold bind at 1. simpl. exact Hrun.
    + refine (eq_trans Hrun2 _). cbn [shift_ids app].
      replace (next_id w + (next_id w2 - next_id w)) with (next_id w2)
        by lia.
      reflexivity.
    + unfold size. simpl. rewrite Hn. reflexivity.
  - destruct (dict_loop_twice level items IH name (next_id w)
                (next_id w2) [] [] (advance w 1) (advance w2 1))
      as (new & Hrun & Hrun2 & Hn).
    exists (JSONComposite name level (next_id w) new). cbn zeta in *.
    rewrite !advance_advance in Hrun, Hrun2.
    rewrite !next_id_advance in Hrun2.
    replace (next_id w2 + Z.of_nat 1 - (next_id w + Z.of_nat 1))
      with (next_id w2 - next_id w) in Hrun2 by lia.
    split; [|split].
    + simpl. unfold _create_composite_from_dict, JSONComposite_init.
      unfold bind at 1. simpl. exact Hrun.
    + refine (eq_trans Hrun2 _). cbn [shift_ids app].
      replace (next_id w + (next_id w2 - next_id w)) with (next_id w2)
        by lia.
      reflexivity.
    + unfold size. simpl. rewrite Hn. reflexivity.
Qed.

(** X3: when [create] returns, its tree has exactly one node for each
    value of the document, containers included; the id counter is that
    many higher, and nothing else in the world has changed: nothing was
    printed. *)
Theorem X3_create_one_node_per_value (factory : JSONNodeFactory.t)
    (w w' : world) (t : JSONNode) :
  JSONNodeFactory.create factory w = (Ok t, w') ->
  size t = json_size (JSONNodeFactory.json_data factory) /\
  w' = advance w (json_size (JSONNodeFactory.json_data factory)).
Proof.
  intros Hrun.
  destruct (create_twice_all (JSONNodeFactory.json_data factory) [] 0 w w)
    as (t0 & Hrun0 & _ & Hsize).
  unfold JSONNodeFactory.create in Hrun. rewrite Hrun0 in Hrun.
  injection Hrun as <- <-. rewrite <- Hsize. auto.
Qed.

Lemma ids_shift_ids k t :
  map get_id (preorder (shift_ids k t))
  = map (fun i => i + k) (map get_id (preorder t)).
Proof.
  rewrite preorder_shift_ids, !map_map. apply map_ext.
  intros n. apply get_id_shift_ids.
Qed.

(** X4: a second [create] on the same factory builds the same tree but
    for the ids, each of which is higher by the distance between the two
    counters; when it runs after the first, no node of the second tree
    has the id of a node of the first. *)
Theorem X4_second_build_shifts_ids (factory : JSONNodeFactory.t)
    (w w1 : world) (t : JSONNode) :
  JSONNodeFactory.create factory w = (Ok t, w1) ->
  forall w2,
    JSONNodeFactory.create factory w2
    = (Ok (shift_ids (next_id w2 - next_id w) t), advance w2 (size t)) /\
    (next_id w1 <= next_id w2 ->
     forall n n2,
       In n (preorder t) ->
       In n2 (preorder (shift_ids (next_id w2 - next_id w) t)) ->
       get_id n <> get_id n2).
Proof.
  intros Hrun w2.
  destruct (create_twice_all (JSONNodeFactory.json_data factory) [] 0 w w2)
    as (t0 & Hrun0 & Hrun2 & _).
  unfold JSONNodeFactory.create in *. rewrite Hrun0 in Hrun.
  injection Hrun as <- <-. split; [exact Hrun2|].
  rewrite next_id_advance. intros Hle n n2 Hn Hn2.
  destruct (create_facts _ _ _ _ _ _ Hrun0) as ((_ & _ & Hids & _) & _).
  assert (H1 : In (get_id n) (map get_id (preorder t0)))
    by (apply in_map; exact Hn).
  assert (H2 : In (get_id n2)
                 (map get_id
                    (preorder (shift_ids (next_id w2 - next_id w) t0))))
    by (apply in_map; exact Hn2).
  rewrite ids_shift_ids, Hids in H2. rewrite Hids in H1.
  apply zseq_bounds in H1. apply in_map_iff in H2.
  destruct H2 as (i & <- & Hi). apply zseq_bounds in Hi. lia.
Qed.

Lemma levels_depth p :
  forall t n, levels_ok t = true -> subtree t p = Some n ->
              get_level n = get_level t + Z.of_nat (length p).
Proof.
  induction p as [|i q IH]; intros t n Hok Hn; simpl in Hn.
  - injection Hn as <-. simpl. lia.
  - destruct (nth_error (get_children t) i) as [c|] eqn:Hc; [|discriminate].
    destruct (levels_ok_child t i c Hok Hc) as (Hl & Hk).
    rewrite (IH c n Hk Hn), Hl. simpl length. lia.
Qed.

(** X5: in a tree built by [create], the root has the empty name and
    the level of every node is its depth: the length of the path of
    child numbers that leads to it from the root. *)
Theorem X5_level_is_depth (factory : JSONNodeFactory.t) (w w' : world)
    (t : JSONNode) :
  JSONNodeFactory.create factory w = (Ok t, w') ->
  get_name t = [] /\
  forall p n, subtree t p = Some n -> get_level n = Z.of_nat (length p).
Proof.
  intros Hrun.
  destruct (create_facts _ _ _ _ _ _ Hrun) as ((Hname & Hlevel & _ & Hok) & _).
  split; [exact Hname|]. intros p n Hn.
  rewrite (levels_depth p t n Hok Hn), Hlevel. lia.
Qed.

(** ** Visitors: exceptions, reuse, the printer *)

(** X6: a traversal stops at the first visit that raises: when the
    visits of the nodes before [n] succeed and the visit of [n] raises,
    [accept] ends with that exception in the world that visit left, and
    no node after [n] is visited. *)
Theorem X6_accept_stops_at_first_exception (V : Type)
    (visitor_of_V : JSONVisitor V) (t n : JSONNode)
    (before after : list JSONNode) (v v1 : V) (w w1 w2 : world) (e : exn) :
  preorder t = before ++ n :: after ->
  visit_all before v w = (Ok v1, w1) ->
  visit v1 n w1 = (Raise e, w2) ->
  accept t v w = (Raise e, w2).
Proof.
  intros Hpre Hbefore Hn.
  rewrite accept_visit_all, Hpre, visit_all_app.
  rewrite (bind_run _ _ _ _ _ Hbefore). cbn [visit_all].
  rewrite (bind_run _ _ _ _ _ Hn). reflexivity.
Qed.

Lemma max_width_from floor floor' nodes :
  floor' <= floor ->
  max_width floor nodes = Z.max floor (max_width floor' nodes).
Proof. intros Hle. induction nodes as [|n nodes IH]; simpl; lia. Qed.

Lemma accept_grid_width_from t g w :
  exists g',
    accept t g w = (Ok g', w) /\
    GridWidthVisitor.grid_width g'
    = max_width (GridWidthVisitor.grid_width g) (preorder t).
Proof.
  eexists. split.
  - apply (accept_pure GridWidthVisitor.update_grid_width); reflexivity.
  - apply fold_update_grid_width.
Qed.

(** X7: the width visitor accumulates: run over a tree from any state,
    it ends with the larger of the width it had and the widths of the
    tree's nodes, so it never lowers its width; run over two trees one
    after the other, from the initial state, it ends with the larger of
    the two trees' widths, in whichever order the trees are visited. *)
Theorem X7_width_visitor_accumulates (t1 t2 : JSONNode)
    (g : GridWidthVisitor.t) (w : world) :
  (exists g1,
     accept t1 g w = (Ok g1, w) /\
     GridWidthVisitor.grid_width g1
     = max_width (GridWidthVisitor.grid_width g) (preorder t1) /\
     GridWidthVisitor.grid_width g <= GridWidthVisitor.grid_width g1) /\
  (exists g12 g21,
     (g1 <- accept t1 GridWidthVisitor.init ;; accept t2 g1) w
     = (Ok g12, w) /\
     (g2 <- accept t2 GridWidthVisitor.init ;; accept t1 g2) w
     = (Ok g21, w) /\
     GridWidthVisitor.grid_width g12 = GridWidthVisitor.grid_width g21 /\
     GridWidthVisitor.grid_width g12
     = Z.max (max_width 16 (preorder t1)) (max_width 16 (preorder t2))).
Proof.
  split.
  - destruct (accept_grid_width_from t1 g w) as (g1 & Hrun & Hg1).
    exists g1. rewrite Hg1. repeat split; auto. apply max_width_floor.
  - destruct (accept_grid_width t1 w) as (g1 & Hrun1 & Hg1).
    destruct (accept_grid_width t2 w) as (g2 & Hrun2 & Hg2).
    destruct (accept_grid_width_from t2 g1 w) as (g12 & Hrun12 & Hg12).
    destruct (accept_grid_width_from t1 g2 w) as (g21 & Hrun21 & Hg21).
    exists g12, g21.
    rewrite (bind_run _ _ _ _ _ Hrun1), (bind_run _ _ _ _ _ Hrun2).
    rewrite Hg12, Hg21, Hg1, Hg2.
    pose proof (max_width_floor 16 (preorder t1)).
    pose proof (max_width_floor 16 (preorder t2)).
    rewrite (max_width_from (max_width 16 (preorder t1)) 16) by lia.
    rewrite (max_width_from (max_width 16 (preorder t2)) 16) by lia.
    repeat split; auto; lia.
Qed.

(** X8: over any tree, the first/last visitor started fresh records the
    id of the root as first and the id of the last node of the
    traversal as last; used again over a second tree, it keeps the
    first id (the root of the first tree) and replaces the last id by
    that of the last node of the second tree. *)
Theorem X8_first_last_visitor_reused (t1 t2 : JSONNode) (w : world) :
  exists fl1 fl2,
    accept t1 FirstLastVisitor.init w = (Ok fl1, w) /\
    FirstLastVisitor.first_visited fl1 = true /\
    FirstLastVisitor.first_id fl1 = Some (get_id t1) /\
    FirstLastVisitor.last_id fl1
    = Some (get_id (last (preorder t1) t1)) /\
    accept t2 fl1 w = (Ok fl2, w) /\
    FirstLastVisitor.first_id fl2 = Some (get_id t1) /\
    FirstLastVisitor.last_id fl2
    = Some (get_id (last (preorder t2) t2)).
Proof.
  assert (Hfresh : fold_left FirstLastVisitor.visit (preorder t1)
                     FirstLastVisitor.init
                   = FirstLastVisitor.mk true (Some (get_id t1))
                       (Some (get_id (last (preorder t1) t1)))).
  { destruct (preorder_head t1) as (l & ->). cbn [fold_left].
    rewrite fold_visit_visited by reflexivity. f_equal.
    rewrite last_cons_default.
    apply (last_map (fun n => Some (get_id n))). }
  do 2 eexists. split.
  { apply (accept_pure FirstLastVisitor.visit); reflexivity. }
  rewrite Hfresh. simpl. repeat split.
  - apply (accept_pure FirstLastVisitor.visit); reflexivity.
  - rewrite fold_visit_visited by reflexivity. reflexivity.
  - rewrite fold_visit_visited by reflexivity. simpl.
    destruct (preorder_head t2) as (l & ->). cbn [map].
    rewrite !last_cons_default.
    apply (last_map (fun n => Some (get_id n))).
Qed.

Lemma printer_visit_all nodes :
  forall (v : JSONPrinterVisitor.t) w,
    visit_all nodes v w
    = (Ok v,
       mkWorld (next_id w) (stdout w ++ map printer_line nodes) (files w)).
Proof.
  induction nodes as [|n nodes IH]; intros v w.
  - simpl. rewrite app_nil_r. destruct w; reflexivity.
  - assert (Hv : visit v n w
                 = (Ok v, mkWorld (next_id w) (stdout w ++ [printer_line n])
                            (files w)))
      by (destruct n; reflexivity).
    cbn [visit_all]. rewrite (bind_run _ _ _ _ _ Hv), IH. simpl.
    rewrite <- app_assoc. reflexivity.
Qed.

Lemma encodable_lit s : encodable (lit s).
Proof.
  unfold encodable, lit. apply Forall_map, Forall_forall. intros a _.
  left. pose proof (N_ascii_bounded a). lia.
Qed.

Lemma encodable_app a b : encodable a -> encodable b -> encodable (a ++ b).
Proof. intros Ha Hb. apply Forall_app. auto. Qed.

Lemma encodable_mul s n : encodable s -> encodable (mul s n).
Proof.
  intros Hs. unfold mul. induction (Z.to_nat n) as [|k IH]; simpl.
  - constructor.
  - apply encodable_app; assumption.
Qed.

Lemma encodable_ljust s width :
  encodable s -> encodable (ljust s width BOX_H).
Proof.
  intros Hs. unfold ljust. apply encodable_app; [exact Hs|].
  induction (Z.to_nat (width - len s)) as [|k IH]; simpl; constructor; auto.
  left. reflexivity.
Qed.

Lemma encodable_printer_line n :
  node_encodable n -> encodable (printer_line n).
Proof.
  intros (Hname & Hvalue).
  destruct n as [name level i cs|name level i [value|]];
    cbn [printer_line JSONPrinterVisitor.show_value get_name get_value]
      in *;
    unfold of_int;
    repeat first [ apply encodable_app | apply encodable_lit | assumption ].
Qed.

(** X9: for a tree built by [create] whose names and values hold no
    surrogate code point, the printer visitor prints one line for every
    node, the root included, in traversal order ([Composite: ...] for a
    composite, [Leaf: ...] for a leaf), each of them a string that
    UTF-8 encodes, and leaves the id counter and the files alone. *)
Theorem X9_printer_prints_every_node (factory : JSONNodeFactory.t)
    (w0 w0' : world) (t : JSONNode) (v : JSONPrinterVisitor.t) (w : world) :
  JSONNodeFactory.create factory w0 = (Ok t, w0') ->
  Forall node_encodable (preorder t) ->
  accept t v w
  = (Ok v,
     mkWorld (next_id w) (stdout w ++ map printer_line (preorder t))
       (files w)) /\
  length (map printer_line (preorder t)) = size t /\
  Forall encodable (map printer_line (preorder t)).
Proof.
  intros _ Henc. split; [|split].
  - rewrite accept_visit_all. apply printer_visit_all.
  - apply length_map.
  - apply Forall_map. eapply Forall_impl; [|exact Henc].
    apply encodable_printer_line.
Qed.

(** ** The star style: what is printed *)

Lemma filter_all {A} (f : A -> bool) l :
  (forall x, In x l -> f x = true) -> filter f l = l.
Proof.
  induction l as [|a l IH]; intros Hf; simpl; [reflexivity|].
  rewrite (Hf a) by (left; reflexivity). f_equal. apply IH.
  intros x Hx. apply Hf. right. exact Hx.
Qed.

Lemma emitted_is_tail t :
  levels_ok t = true -> get_level t = 0 ->
  filter (fun n => negb (is_root n)) (preorder t) = tl (preorder t).
Proof.
  intros Hok H0.
  assert (Hpre : preorder t = t :: flat_map preorder (get_children t))
    by (destruct t; reflexivity).
  rewrite Hpre. simpl. unfold is_root at 1. rewrite H0. simpl.
  apply filter_all. intros n Hn. apply in_flat_map in Hn.
  destruct Hn as (c & Hc & Hn).
  pose proof (levels_below t c n Hok Hc Hn).
  unfold is_root. apply negb_true_iff, Z.eqb_neq. lia.
Qed.

Lemma star_render styled w :
  StarStyledJSONNode.render styled w
  = (Ok tt,
     mkWorld (next_id w)
       (stdout w
        ++ map (RenderVisitor.line
                  (RenderVisitor.mk
                     (GridWidthVisitor.grid_width
                        (StarStyledJSONNode.grid_width_visitor styled))
                     (StarStyledJSONNode.fl_visitor styled)
                     (StarStyledJSONNode.icon_family styled)))
               (filter (fun n => negb (is_root n))
                       (preorder (StarStyledJSONNode._root styled))))
       (files w)).
Proof.
  unfold StarStyledJSONNode.render.
  rewrite (bind_run _ _ _ _ _ (render_accept _ _ w)). reflexivity.
Qed.

Lemma encodable_line rv n :
  encodable (leaf_icon (RenderVisitor.icon_family rv)) ->
  encodable (composite_icon (RenderVisitor.icon_family rv)) ->
  node_encodable n ->
  encodable (RenderVisitor.line rv n).
Proof.
  intros Hleaf Hcomp (Hname & Hvalue).
  unfold RenderVisitor.line. cbv zeta.
  destruct (FirstLastVisitor.is_first _ n),
    (FirstLastVisitor.is_last _ n),
    (get_level n =? 1), (get_level n >? 2), (get_level n >? 1);
    destruct n as [name level i cs|name level i [value|]];
    cbn [is_leaf get_value get_name] in *;
    repeat first
      [ apply encodable_ljust | apply encodable_mul | apply encodable_lit
      | assumption | apply encodable_app
      | apply Forall_nil
      | apply Forall_cons; [left; reflexivity|] ].
Qed.

(** X10: rendering a tree built by [create], when the names, the values
    and the two icons hold no surrogate code point, prints one line for
    every node except the root, in traversal order, each of them a
    string that UTF-8 encodes, and changes nothing else in the world;
    the number of lines is the number of values of the document less
    one, so an empty object or array prints nothing. *)
Theorem X10_star_render_prints_all_but_root (factory : JSONNodeFactory.t)
    (w w' : world) (t : JSONNode) (icons : IconFamily) :
  JSONNodeFactory.create factory w = (Ok t, w') ->
  encodable (leaf_icon icons) ->
  encodable (composite_icon icons) ->
  Forall node_encodable (preorder t) ->
  forall w1, exists styled lines,
    StarStyledJSONNode.init t icons w1 = (Ok styled, w1) /\
    lines
    = map (RenderVisitor.line
             (RenderVisitor.mk
                (GridWidthVisitor.grid_width
                   (StarStyledJSONNode.grid_width_visitor styled))
                (StarStyledJSONNode.fl_visitor styled) icons))
          (tl (preorder t)) /\
    StarStyledJSONNode.render styled w1
    = (Ok tt, mkWorld (next_id w1) (stdout w1 ++ lines) (files w1)) /\
    Forall encodable lines /\
    S (length lines) = json_size (JSONNodeFactory.json_data factory).
Proof.
  intros Hrun Hleaf Hcomp Henc w1.
  destruct (star_init t icons w1) as (g & fl & Hinit & _ & _).
  exists (StarStyledJSONNode.mk g fl icons t). eexists.
  split; [exact Hinit|]. split; [reflexivity|].
  destruct (create_facts _ _ _ _ _ _ Hrun) as ((_ & Hlevel & _ & Hok) & _).
  simpl StarStyledJSONNode.grid_width_visitor.
  simpl StarStyledJSONNode.fl_visitor.
  split; [|split].
  - rewrite star_render. simpl. rewrite emitted_is_tail by assumption.
    reflexivity.
  - apply Forall_map. apply Forall_forall. intros n Hn.
    apply encodable_line; simpl; try assumption.
    rewrite Forall_forall in Henc. apply Henc.
    destruct (preorder_head t) as (l & Hpre). rewrite Hpre in *.
    right. exact Hn.
  - rewrite length_map.
    destruct (create_twice_all (JSONNodeFactory.json_data factory) [] 0 w w)
      as (t0 & Hrun0 & _ & Hsize).
    unfold JSONNodeFactory.create in Hrun. rewrite Hrun0 in Hrun.
    injection Hrun as <- _. rewrite <- Hsize. unfold size.
    destruct (preorder_head t0) as (l & ->). reflexivity.
Qed.

(** X12: a rendered line is never shorter than the grid width, whatever
    the node, the icons and the recorded first and last ids are: the
    text is padded to [grid_width - 2] and never cut, and two closing
    characters follow. *)
Theorem X12_line_at_least_grid_width (rv : RenderVisitor.t)
    (n : JSONNode) :
  RenderVisitor.grid_width rv <= len (RenderVisitor.line rv n).
Proof.
  unfold RenderVisitor.line. cbv zeta.
  destruct (FirstLastVisitor.is_first (RenderVisitor.fl_visitor rv) n);
    [|destruct (FirstLastVisitor.is_last (RenderVisitor.fl_visitor rv) n)];
    rewrite len_app, len_ljust;
    change (len [BOX_H; BOX_H]) with 2; change (len [BOX_H; BOX_VL]) with 2;
    lia.
Qed.

Lemma removelast_map_comm {A B} (f : A -> B) l :
  removelast (map f l) = map f (removelast l).
Proof.
  induction l as [|a [|b l] IH]; simpl in *; try reflexivity.
  f_equal. exact IH.
Qed.

Lemma removelast_in {A} (x : A) l : In x (removelast l) -> In x l.
Proof.
  induction l as [|a [|b l] IH]; simpl in *; tauto.
Qed.

Lemma removelast_not_last {A B} (f : A -> B) l x d :
  NoDup (map f l) -> In x (removelast l) -> f x <> f (last l d).
Proof.
  intros Hnd Hx.
  assert (Hne : l <> []) by (intros ->; destruct Hx).
  rewrite (app_removelast_last d Hne), map_app in Hnd.
  simpl in Hnd. apply NoDup_remove_2 in Hnd. rewrite app_nil_r in Hnd.
  intros Heq. apply Hnd. rewrite <- Heq. apply in_map. exact Hx.
Qed.

Lemma NoDup_map_eq {A B} (f : A -> B) l x y :
  NoDup (map f l) -> In x l -> In y l -> f x = f y -> x = y.
Proof.
  induction l as [|a l IH]; intros Hnd Hx Hy Heq; [destruct Hx|].
  simpl in Hnd. inversion Hnd as [|? ? Hnotin Hnd']; subst.
  destruct Hx as [->|Hx], Hy as [->|Hy]; auto.
  - exfalso. apply Hnotin. rewrite Heq. apply in_map. exact Hy.
  - exfalso. apply Hnotin. rewrite <- Heq. apply in_map. exact Hx.
Qed.

(** X11: with one-character icons, every line printed for a tree built
    by [create] is exactly as long as the grid is wide, except possibly
    the last line; and the last line is too when the last node visited
    is not at level 1. *)
Theorem X11_only_the_last_line_can_be_too_long
    (factory : JSONNodeFactory.t) (w w' : world) (t : JSONNode)
    (icons : IconFamily) :
  JSONNodeFactory.create factory w = (Ok t, w') ->
  len (leaf_icon icons) = 1 ->
  len (composite_icon icons) = 1 ->
  forall w1, exists styled lines,
    StarStyledJSONNode.init t icons w1 = (Ok styled, w1) /\
    StarStyledJSONNode.render styled w1
    = (Ok tt, mkWorld (next_id w1) (stdout w1 ++ lines) (files w1)) /\
    let G := GridWidthVisitor.grid_width
               (StarStyledJSONNode.grid_width_visitor styled) in
    Forall (fun l => len l = G) (removelast lines) /\
    (get_level (last (preorder t) t) <> 1 ->
     Forall (fun l => len l = G) lines).
Proof.
  intros Hrun Hleaf Hcomp w1.
  destruct (star_line_lengths factory w w' t icons Hrun Hleaf Hcomp w1)
    as (styled & Hinit & Hlen).
  destruct (star_init t icons w1) as (g & fl & Hinit' & _ & Hfl).
  rewrite Hinit' in Hinit. injection Hinit as <-. cbn zeta in Hlen.
  simpl StarStyledJSONNode.fl_visitor in Hlen.
  simpl StarStyledJSONNode.grid_width_visitor in Hlen.
  destruct (accept_first_last t w1) as (fl0 & Hfl0 & _ & Hlast).
  rewrite Hfl in Hfl0. injection Hfl0 as <-.
  destruct (create_facts _ _ _ _ _ _ Hrun) as ((_ & Hlevel & Hids & Hok) & _).
  assert (Hnd : NoDup (map get_id (preorder t)))
    by (rewrite Hids; apply sorted_lt_NoDup, zseq_sorted).
  pose proof (emitted_is_tail t Hok Hlevel) as Htail.
  assert (Hin : forall n, In n (tl (preorder t)) ->
                          In n (preorder t) /\ is_root n = false).
  { intros n Hn. rewrite <- Htail in Hn. apply filter_In in Hn.
    destruct Hn as (Hn & Hr). apply negb_true_iff in Hr. auto. }
  exists (StarStyledJSONNode.mk g fl icons t). eexists.
  split; [exact Hinit'|]. split.
  { rewrite star_render. simpl. rewrite Htail. reflexivity. }
  cbn zeta. simpl StarStyledJSONNode.grid_width_visitor.
  destruct (preorder_head t) as (rest & Hpre).
  rewrite Hpre in *. cbn [tl] in *. rewrite last_cons_default in *.
  simpl in Hnd. apply NoDup_cons_iff in Hnd. destruct Hnd as (_ & Hnd).
  split.
  - rewrite removelast_map_comm. apply Forall_map, Forall_forall.
    intros n Hn. destruct (Hin n (removelast_in _ _ Hn)) as (Hn' & Hroot).
    rewrite (Hlen n Hn' Hroot).
    unfold FirstLastVisitor.is_last. rewrite Hlast. simpl.
    replace (get_id n =? get_id (last rest t)) with false; [reflexivity|].
    symmetry. apply Z.eqb_neq.
    apply (removelast_not_last get_id rest n t Hnd Hn).
  - intros Hlv. apply Forall_map, Forall_forall. intros n Hn.
    destruct (Hin n Hn) as (Hn' & Hroot). rewrite (Hlen n Hn' Hroot).
    unfold FirstLastVisitor.is_last. rewrite Hlast. simpl.
    destruct (Z.eqb_spec (get_id n) (get_id (last rest t))) as [Heq|];
      [|reflexivity].
    assert (Hl : In (last rest t) rest).
    { destruct rest as [|a rest']; [destruct Hn|].
      rewrite last_cons_default. apply last_in. }
    rewrite (NoDup_map_eq get_id rest n _ Hnd Hn Hl Heq).
    replace (get_level (last rest t) =? 1) with false; [reflexivity|].
    symmetry. apply Z.eqb_neq. exact Hlv.
Qed.

(** ** The output does not depend on the id counter *)

Lemma node_width_shift_ids k n : node_width (shift_ids k n) = node_width n.
Proof. destruct n as [? ? ? ?|? ? ? [?|]]; reflexivity. Qed.

Lemma max_width_shift_ids k floor nodes :
  max_width floor (map (shift_ids k) nodes) = max_width floor nodes.
Proof.
  induction nodes as [|n nodes IH]; simpl; [reflexivity|].
  rewrite IH, node_width_shift_ids. reflexivity.
Qed.

Lemma id_eq_shift k i recorded :
  FirstLastVisitor.id_eq (i + k) (option_map (fun j => j + k) recorded)
  = FirstLastVisitor.id_eq i recorded.
Proof.
  destruct recorded as [j|]; simpl; [|reflexivity].
  destruct (Z.eqb_spec i j), (Z.eqb_spec (i + k) (j + k)); auto; lia.
Qed.

Lemma line_shift_ids k G fl icons n :
  RenderVisitor.line (RenderVisitor.mk G (shift_recorded k fl) icons)
    (shift_ids k n)
  = RenderVisitor.line (RenderVisitor.mk G fl icons) n.
Proof.
  unfold RenderVisitor.line, FirstLastVisitor.is_first,
    FirstLastVisitor.is_last.
  cbn [RenderVisitor.fl_visitor RenderVisitor.grid_width
       RenderVisitor.icon_family shift_recorded
       FirstLastVisitor.first_id FirstLastVisitor.last_id].
  rewrite get_id_shift_ids, !id_eq_shift.
  destruct n as [? ? ? ?|? ? ? [?|]]; reflexivity.
Qed.

Lemma accept_first_last_record t w :
  accept t FirstLastVisitor.init w
  = (Ok (FirstLastVisitor.mk true (Some (get_id t))
           (Some (get_id (last (preorder t) t)))), w).
Proof.
  rewrite (accept_pure FirstLastVisitor.visit) by reflexivity.
  do 2 f_equal. destruct (preorder_head t) as (l & ->). cbn [fold_left].
  rewrite fold_visit_visited by reflexivity. f_equal.
  rewrite last_cons_default.
  apply (last_map (fun n => Some (get_id n))).
Qed.

Lemma filter_map_comm {A B} (f : B -> bool) (g : A -> B) l :
  filter f (map g l) = map g (filter (fun x => f (g x)) l).
Proof.
  induction l as [|a l IH]; simpl; [reflexivity|].
  destruct (f (g a)); simpl; rewrite IH; reflexivity.
Qed.

Lemma star_of_shifted k t icons w :
  exists g fl,
    StarStyledJSONNode.init t icons w
    = (Ok (StarStyledJSONNode.mk g fl icons t), w) /\
    forall w2,
      StarStyledJSONNode.init (shift_ids k t) icons w2
      = (Ok (StarStyledJSONNode.mk g (shift_recorded k fl) icons
               (shift_ids k t)), w2).
Proof.
  destruct (accept_grid_width t w) as (g & Hg & Hmax).
  exists g, (FirstLastVisitor.mk true (Some (get_id t))
               (Some (get_id (last (preorder t) t)))).
  split.
  - unfold StarStyledJSONNode.init.
    rewrite (bind_run _ _ _ _ _ Hg).
    rewrite (bind_run _ _ _ _ _ (accept_first_last_record t w)).
    reflexivity.
  - intros w2. unfold StarStyledJSONNode.init.
    destruct (accept_grid_width (shift_ids k t) w2) as (g2 & Hg2 & Hmax2).
    rewrite preorder_shift_ids, max_width_shift_ids, <- Hmax in Hmax2.
    assert (g2 = g) by (destruct g2, g; simpl in *; congruence). subst g2.
    rewrite (bind_run _ _ _ _ _ Hg2).
    rewrite (bind_run _ _ _ _ _ (accept_first_last_record _ w2)).
    unfold shift_recorded. simpl.
    rewrite preorder_shift_ids, get_id_shift_ids.
    rewrite (last_map (shift_ids k)), get_id_shift_ids. reflexivity.
Qed.

(** X13: what the star style prints for a document does not depend on
    the id counter: two trees built by the same factory in two worlds
    get the same grid width and the same lines. *)
Theorem X13_output_independent_of_id_counter (factory : JSONNodeFactory.t)
    (wa wa' wb wb' : world) (ta tb : JSONNode) (icons : IconFamily) :
  JSONNodeFactory.create factory wa = (Ok ta, wa') ->
  JSONNodeFactory.create factory wb = (Ok tb, wb') ->
  forall w1 w2, exists sa sb lines,
    StarStyledJSONNode.init ta icons w1 = (Ok sa, w1) /\
    StarStyledJSONNode.init tb icons w2 = (Ok sb, w2) /\
    StarStyledJSONNode.grid_width_visitor sa
    = StarStyledJSONNode.grid_width_visitor sb /\
    StarStyledJSONNode.render sa w1
    = (Ok tt, mkWorld (next_id w1) (stdout w1 ++ lines) (files w1)) /\
    StarStyledJSONNode.render sb w2
    = (Ok tt, mkWorld (next_id w2) (stdout w2 ++ lines) (files w2)).
Proof.
  intros Ha Hb w1 w2.
  destruct (create_twice_all (JSONNodeFactory.json_data factory) [] 0 wa wb)
    as (t & Hta & Htb & _).
  unfold JSONNodeFactory.create in *.
  rewrite Hta in Ha. injection Ha as <- _.
  rewrite Htb in Hb. injection Hb as <- _.
  set (k := next_id wb - next_id wa).
  destruct (star_of_shifted k t icons w1) as (g & fl & Hinit & Hshift).
  do 3 eexists. split; [exact Hinit|]. split; [exact (Hshift w2)|].
  split; [reflexivity|]. rewrite !star_render. simpl.
  split; [reflexivity|]. do 3 f_equal.
  rewrite preorder_shift_ids, filter_map_comm, map_map.
  rewrite (filter_ext _ (fun n => negb (is_root n)))
    by (intros n; destruct n; reflexivity).
  apply map_ext. intros n. apply line_shift_ids.
Qed.

(** ** [create_styled_json] with the star style *)

(** X14: the builder as constructed finds the star factory under
    [star]; and with any builder where the style is the star factory
    and the icon family is known, when the tree of the file is built,
    [create_styled_json] returns the star rendering of that tree with
    the icons of the family, in the world the build left: the id
    counter is higher by the number of nodes and nothing is printed,
    the lines appearing only when [render] is called. *)
Theorem X14_create_styled_json_star
    (TreeStyledJSONNodeFactory RectangleStyledJSONNodeFactory
       : StyledJSONNodeFactory.t)
    (self : StyledJSONBuilder.t)
    (filepath icon_family style : pystr) (icons : IconFamily)
    (t : JSONNode) (w w1 : world) :
  lookup (StyledJSONBuilder._icon_families self) icon_family = Some icons ->
  lookup (StyledJSONBuilder._styles_factory self) style = Some star_factory ->
  factory_build filepath w = (Ok t, w1) ->
  lookup (StyledJSONBuilder._styles_factory
            (StyledJSONBuilder.init TreeStyledJSONNodeFactory
               RectangleStyledJSONNodeFactory)) (lit "star")
  = Some star_factory /\
  w1 = advance w (size t) /\
  exists star,
    StarStyledJSONNode.init t icons w1 = (Ok star, w1) /\
    StarStyledJSONNode._root star = t /\
    StarStyledJSONNode.icon_family star = icons /\
    StyledJSONBuilder.create_styled_json self filepath icon_family style w
    = (Ok (StyledJSONNode.mk (StarStyledJSONNode.render star)), w1).
Proof.
  intros Hicons Hstyle Hbuild. split; [reflexivity|].
  destruct (factory_build_inv _ _ _ _ Hbuild) as (data & _ & _ & Hcreate).
  destruct (create_facts _ _ _ _ _ _ Hcreate) as (_ & Hw1).
  split; [exact Hw1|].
  destruct (star_init t icons w1) as (g & fl & Hinit & _ & _).
  exists (StarStyledJSONNode.mk g fl icons t).
  split; [exact Hinit|]. split; [reflexivity|]. split; [reflexivity|].
  unfold StyledJSONBuilder.create_styled_json. rewrite Hicons, Hstyle.
  rewrite (bind_run _ _ _ _ _ Hbuild). simpl.
  unfold StarStyledJSONNodeFactory.create.
  rewrite (bind_run _ _ _ _ _ Hinit). reflexivity.
Qed.

(** ** Loading icon families *)

Lemma load_loop_keys IconFamily_init filepath entries :
  forall families w, exists added,
    map fst (snd (fst (StyledJSONBuilder.load_loop IconFamily_init filepath
                         entries families w)))
    = map fst families ++ added /\
    incl added (map fst entries).
Proof.
  induction entries as [|[name icon_family] rest IH]; intros families w.
  - exists []. simpl. rewrite app_nil_r. split; [reflexivity|].
    apply incl_refl.
  - simpl.
    destruct (subscript icon_family (lit "composite")) as [e|composite];
      [exists []; simpl; rewrite app_nil_r; split;
       [reflexivity | apply incl_nil_l]|].
    destruct (subscript icon_family (lit "leaf")) as [e|leaf];
      [exists []; simpl; rewrite app_nil_r; split;
       [reflexivity | apply incl_nil_l]|].
    destruct (IconFamily_init composite leaf w) as [[icons|e] w1];
      [|exists []; simpl; rewrite app_nil_r; split;
        [reflexivity | apply incl_nil_l]].
    destruct (IH (dict_set families name icons) w1) as (added & Hkeys & Hincl).
    rewrite Hkeys, dict_set_keys.
    destruct (lookup families name).
    + exists added. split; [reflexivity|]. apply incl_tl. exact Hincl.
    + exists (name :: added). rewrite <- app_assoc. split; [reflexivity|].
      apply incl_cons; [left; reflexivity | apply incl_tl; exact Hincl].
Qed.

(** X15: [load_icon_family] on a path that is not a file raises the
    file-not-found exception, and on a file whose top value is not an
    object an [AttributeError]; in both cases the builder and the world
    are as before. *)
Theorem X15_load_icon_family_rejects
    (IconFamily_init : json -> json -> M IconFamily)
    (self : StyledJSONBuilder.t) (filepath : pystr) (w : world) :
  (files w filepath = None ->
   StyledJSONBuilder.load_icon_family IconFamily_init self filepath w
   = ((Raise (FJEException (msg_no_icon_file filepath)), self), w)) /\
  (forall data,
     files w filepath = Some (Some data) ->
     (forall entries, data <> JDict entries) ->
     StyledJSONBuilder.load_icon_family IconFamily_init self filepath w
     = ((Raise AttributeError, self), w)).
Proof.
  unfold StyledJSONBuilder.load_icon_family, isfile, json_load. split.
  - intros ->. reflexivity.
  - intros data Hf Hnd. rewrite Hf. simpl.
    destruct data as [|s|items|entries]; try reflexivity.
    exfalso. apply (Hnd entries). reflexivity.
Qed.

(** X16: whatever the file holds and however the call ends,
    [load_icon_family] removes no icon family and touches no style: the
    names available after the call are the names available before, in
    the same order, followed by names that are keys of the file. *)
Theorem X16_load_icon_family_only_adds
    (IconFamily_init : json -> json -> M IconFamily)
    (self : StyledJSONBuilder.t) (filepath : pystr) (w : world) :
  let self' :=
    snd (fst (StyledJSONBuilder.load_icon_family IconFamily_init self
                filepath w)) in
  StyledJSONBuilder.get_available_styles self'
  = StyledJSONBuilder.get_available_styles self /\
  StyledJSONBuilder._styles_factory self'
  = StyledJSONBuilder._styles_factory self /\
  exists added,
    StyledJSONBuilder.get_available_icon_families self'
    = StyledJSONBuilder.get_available_icon_families self ++ added /\
    forall name, In name added ->
      exists entries,
        files w filepath = Some (Some (JDict entries)) /\
        In name (map fst entries).
Proof.
  cbn zeta.
  unfold StyledJSONBuilder.load_icon_family, isfile, json_load,
    StyledJSONBuilder.get_available_styles,
    StyledJSONBuilder.get_available_icon_families.
  assert (Hsame : forall r w',
            StyledJSONBuilder._styles_factory
              (snd (fst (((r : result unit), self), (w' : world))))
            = StyledJSONBuilder._styles_factory self /\
            exists added,
              map fst (StyledJSONBuilder._icon_families
                         (snd (fst ((r, self), w'))))
              = map fst (StyledJSONBuilder._icon_families self) ++ added /\
              forall name, In name added ->
                exists entries,
                  files w filepath = Some (Some (JDict entries)) /\
                  In name (map fst entries)).
  { intros r w'. simpl. split; [reflexivity|]. exists [].
    rewrite app_nil_r. split; [reflexivity|]. intros name []. }
  destruct (files w filepath) as [[data|]|] eqn:Hf; simpl;
    try (destruct (Hsame (Raise OtherError) w) as (H1 & H2);
         simpl in H1, H2; rewrite ?H1; auto; fail).
  destruct data as [|s|items|entries];
    try (destruct (Hsame (Raise AttributeError) w) as (H1 & H2);
         simpl in H1, H2; rewrite ?H1; auto; fail).
  destruct (load_loop_keys IconFamily_init filepath entries
              (StyledJSONBuilder._icon_families self) w)
    as (added & Hkeys & Hincl).
  destruct (StyledJSONBuilder.load_loop IconFamily_init filepath entries
              (StyledJSONBuilder._icon_families self) w)
    as [[r families] w3].
  simpl in *. split; [reflexivity|]. split; [reflexivity|].
  exists added. split; [exact Hkeys|]. intros name Hn.
  exists entries. split; [reflexivity|]. apply Hincl. exact Hn.
Qed.

Lemma icon_entry_unique IconFamily_init entry icons icons' :
  icon_entry IconFamily_init entry icons ->
  icon_entry IconFamily_init entry icons' ->
  icons = icons'.
Proof.
  intros (c & l & Hc & Hl & Hi) (c' & l' & Hc' & Hl' & Hi').
  rewrite Hc in Hc'. rewrite Hl in Hl'.
  injection Hc' as <-. injection Hl' as <-.
  pose proof (Hi (mkWorld 0 [] (fun _ => None))) as H1.
  rewrite Hi' in H1. congruence.
Qed.

Lemma load_loop_ok IconFamily_init filepath entries :
  Forall (fun e => exists icons, icon_entry IconFamily_init e icons)
    entries ->
  NoDup (map fst entries) ->
  forall families w, exists families',
    StyledJSONBuilder.load_loop IconFamily_init filepath entries families w
    = ((Ok tt, families'), w) /\
    (forall name, ~ In name (map fst entries) ->
                  lookup families' name = lookup families name) /\
    (forall entry icons,
        In entry entries -> icon_entry IconFamily_init entry icons ->
        lookup families' (fst entry) = Some icons).
Proof.
  induction 1 as [|[name icon_family] rest (icons0 & Hentry) _ IH];
    intros Hnd families w.
  - exists families. split; [reflexivity|]. split; [reflexivity|].
    intros entry icons [].
  - simpl in Hnd. apply NoDup_cons_iff in Hnd. destruct Hnd as (Hnotin & Hnd).
    destruct (IH Hnd (dict_set families name icons0) w)
      as (families' & Hrun & Hother & Hfound).
    exists families'. split; [|split].
    + destruct Hentry as (c & l & Hc & Hl & Hi). simpl in Hc, Hl.
      simpl. rewrite Hc, Hl, Hi. exact Hrun.
    + intros other Ho. simpl in Ho.
      rewrite Hother by tauto. apply lookup_dict_set_other.
      intros ->. apply Ho. left. reflexivity.
    + intros entry icons [<-|Hin] Hicons.
      * rewrite (icon_entry_unique _ _ _ _ Hicons Hentry). simpl.
        rewrite (Hother name Hnotin). apply lookup_dict_set_same.
      * apply Hfound; assumption.
Qed.

(** X17: when every entry of the icon file has both glyphs and the
    constructor accepts them (the keys of the file being distinct, as
    the keys of a dict are), [load_icon_family] returns, every family
    of the file is then found under its name with the icons the
    constructor made, every other name is found, or not found, as
    before, and the styles are untouched. *)
Theorem X17_load_icon_family_registers
    (IconFamily_init : json -> json -> M IconFamily)
    (self : StyledJSONBuilder.t) (filepath : pystr)
    (entries : list (pystr * json)) (w : world) :
  files w filepath = Some (Some (JDict entries)) ->
  Forall (fun e => exists icons, icon_entry IconFamily_init e icons)
    entries ->
  NoDup (map fst entries) ->
  exists self',
    StyledJSONBuilder.load_icon_family IconFamily_init self filepath w
    = ((Ok tt, self'), w) /\
    StyledJSONBuilder._styles_factory self'
    = StyledJSONBuilder._styles_factory self /\
    (forall entry icons,
        In entry entries -> icon_entry IconFamily_init entry icons ->
        lookup (StyledJSONBuilder._icon_families self') (fst entry)
        = Some icons) /\
    (forall name, ~ In name (map fst entries) ->
        lookup (StyledJSONBuilder._icon_families self') name
        = lookup (StyledJSONBuilder._icon_families self) name).
Proof.
  intros Hf Hwf Hnd.
  destruct (load_loop_ok IconFamily_init filepath entries Hwf Hnd
              (StyledJSONBuilder._icon_families self) w)
    as (families' & Hrun & Hother & Hfound).
  exists (StyledJSONBuilder.mk families'
            (StyledJSONBuilder._styles_factory self)).
  split; [|split; [reflexivity|split; [exact Hfound | exact Hother]]].
  unfold StyledJSONBuilder.load_icon_family, isfile, json_load.
  rewrite Hf. simpl. rewrite Hrun. reflexivity.
Qed.

Lemma load_loop_app IconFamily_init filepath good more :
  forall families w families1 w1,
    StyledJSONBuilder.load_loop IconFamily_init filepath good families w
    = ((Ok tt, families1), w1) ->
    StyledJSONBuilder.load_loop IconFamily_init filepath (good ++ more)
      families w
    = StyledJSONBuilder.load_loop IconFamily_init filepath more
        families1 w1.
Proof.
  induction good as [|[name icon_family] good IH];
    intros families w families1 w1 Hrun; simpl in *.
  - injection Hrun as <- <-. reflexivity.
  - destruct (subscript icon_family (lit "composite")) as [e|composite];
      [discriminate|].
    destruct (subscript icon_family (lit "leaf")) as [e|leaf];
      [discriminate|].
    destruct (IconFamily_init composite leaf w) as [[icons|e] w2];
      [|discriminate].
    apply IH. exact Hrun.
Qed.

(** X18: when an entry of the icon file lacks the composite or the leaf
    glyph, [load_icon_family] raises the format error, and the
    families of the entries before it stay registered: the builder is
    left changed although the call failed.  Names that are not among
    those earlier entries are found, or not found, as before. *)
Theorem X18_load_icon_family_fails_half_way
    (IconFamily_init : json -> json -> M IconFamily)
    (self : StyledJSONBuilder.t) (filepath name : pystr)
    (good rest : list (pystr * json)) (fields : list (pystr * json))
    (w : world) :
  files w filepath
  = Some (Some (JDict (good ++ (name, JDict fields) :: rest))) ->
  Forall (fun e => exists icons, icon_entry IconFamily_init e icons) good ->
  NoDup (map fst good) ->
  lookup fields (lit "composite") = None \/
  lookup fields (lit "leaf") = None ->
  exists self',
    StyledJSONBuilder.load_icon_family IconFamily_init self filepath w
    = ((Raise (FJEException (msg_bad_icon_file filepath)), self'), w) /\
    (forall entry icons,
        In entry good -> icon_entry IconFamily_init entry icons ->
        lookup (StyledJSONBuilder._icon_families self') (fst entry)
        = Some icons) /\
    (forall other, ~ In other (map fst good) ->
        lookup (StyledJSONBuilder._icon_families self') other
        = lookup (StyledJSONBuilder._icon_families self) other).
Proof.
  intros Hf Hwf Hnd Hmissing.
  destruct (load_loop_ok IconFamily_init filepath good Hwf Hnd
              (StyledJSONBuilder._icon_families self) w)
    as (families' & Hrun & Hother & Hfound).
  exists (StyledJSONBuilder.mk families'
            (StyledJSONBuilder._styles_factory self)).
  split; [|split; [exact Hfound | exact Hother]].
  unfold StyledJSONBuilder.load_icon_family, isfile, json_load.
  rewrite Hf. simpl.
  rewrite (load_loop_app _ _ _ _ _ _ _ _ Hrun). simpl.
  destruct (lookup fields (lit "composite")) as [c|] eqn:Hc;
    [|reflexivity].
  destruct Hmissing as [Hm|Hm]; [discriminate|].
  rewrite Hm. reflexivity.
Qed.

(** X19: with one-character icons, when the last node visited of a tree
    built by [create] is at level 1, its line, the last one printed, is
    as long as the larger of the grid width and the node's width plus
    three: it is longer than the grid is wide exactly when the node's
    width exceeds the grid width less three. *)
Theorem X19_last_line_at_level_1_length (factory : JSONNodeFactory.t)
    (w w' : world) (t : JSONNode) (icons : IconFamily) :
  JSONNodeFactory.create factory w = (Ok t, w') ->
  len (leaf_icon icons) = 1 ->
  len (composite_icon icons) = 1 ->
  get_level (last (preorder t) t) = 1 ->
  forall w1, exists styled lines,
    StarStyledJSONNode.init t icons w1 = (Ok styled, w1) /\
    StarStyledJSONNode.render styled w1
    = (Ok tt, mkWorld (next_id w1) (stdout w1 ++ lines) (files w1)) /\
    let G := GridWidthVisitor.grid_width
               (StarStyledJSONNode.grid_width_visitor styled) in
    len (last lines [])
    = Z.max (node_width (last (preorder t) t) + 3) G /\
    (G < len (last lines []) <-> G - 3 < node_width (last (preorder t) t)).
Proof.
  intros Hrun Hleaf Hcomp Hlv w1.
  destruct (star_line_lengths factory w w' t icons Hrun Hleaf Hcomp w1)
    as (styled & Hinit & Hlen).
  destruct (star_init t icons w1) as (g & fl & Hinit' & _ & Hfl).
  rewrite Hinit' in Hinit. injection Hinit as <-. cbn zeta in Hlen.
  simpl StarStyledJSONNode.fl_visitor in Hlen.
  simpl StarStyledJSONNode.grid_width_visitor in Hlen.
  destruct (accept_first_last t w1) as (fl0 & Hfl0 & _ & Hlast).
  rewrite Hfl in Hfl0. injection Hfl0 as <-.
  destruct (create_facts _ _ _ _ _ _ Hrun) as ((_ & Hlevel & _ & Hok) & _).
  pose proof (emitted_is_tail t Hok Hlevel) as Htail.
  exists (StarStyledJSONNode.mk g fl icons t). eexists.
  split; [exact Hinit'|]. split.
  { rewrite star_render. simpl. rewrite Htail. reflexivity. }
  cbn zeta. simpl StarStyledJSONNode.grid_width_visitor.
  assert (Hin : In (last (preorder t) t) (preorder t)).
  { destruct (preorder_head t) as (rest & ->).
    rewrite last_cons_default. apply last_in. }
  assert (Hroot : is_root (last (preorder t) t) = false)
    by (unfold is_root; rewrite Hlv; reflexivity).
  specialize (Hlen _ Hin Hroot).
  unfold FirstLastVisitor.is_last in Hlen. rewrite Hlast in Hlen.
  simpl in Hlen. rewrite Z.eqb_refl, Hlv in Hlen. simpl in Hlen.
  assert (Hline : last (map (RenderVisitor.line
                               (RenderVisitor.mk
                                  (GridWidthVisitor.grid_width g) fl icons))
                            (tl (preorder t))) []
                  = RenderVisitor.line
                      (RenderVisitor.mk (GridWidthVisitor.grid_width g)
                         fl icons)
                      (last (preorder t) t)).
  { destruct (preorder_head t) as (rest & Hpre). rewrite Hpre in *.
    cbn [tl]. rewrite last_cons_default in *.
    destruct rest as [|a rest'].
    - simpl in Hlv. rewrite Hlevel in Hlv. discriminate.
    - cbn [map]. rewrite !last_cons_default. apply last_map. }
  rewrite Hline, Hlen. split; [reflexivity | lia].
Qed.

(** ** The further theorems at concrete inputs *)

Lemma X4_second_build_shifts_ids_witness :
  JSONNodeFactory.create (JSONNodeFactory.mk doc_a_b) (one_file doc_a_b)
  = (Ok tree_a_b, advance (one_file doc_a_b) 5) /\
  JSONNodeFactory.create (JSONNodeFactory.mk doc_a_b)
    (advance (one_file doc_a_b) 5)
  = (Ok (shift_ids (next_id (advance (one_file doc_a_b) 5)
                    - next_id (one_file doc_a_b)) tree_a_b),
     advance (advance (one_file doc_a_b) 5) (size tree_a_b)).
Proof.
  split; [reflexivity|].
  exact (proj1 (X4_second_build_shifts_ids
                  (JSONNodeFactory.mk doc_a_b) (one_file doc_a_b)
                  (advance (one_file doc_a_b) 5) tree_a_b eq_refl
                  (advance (one_file doc_a_b) 5))).
Defined.

Lemma X5_level_is_depth_witness :
  JSONNodeFactory.create (JSONNodeFactory.mk doc_a_b) (one_file doc_a_b)
  = (Ok tree_a_b, advance (one_file doc_a_b) 5) /\
  get_name tree_a_b = [].
Proof.
  split; [reflexivity|].
  exact (proj1 (X5_level_is_depth
                  (JSONNodeFactory.mk doc_a_b) (one_file doc_a_b)
                  (advance (one_file doc_a_b) 5) tree_a_b eq_refl)).
Defined.

Lemma X6_accept_stops_at_first_exception_witness :
  @accept unit stop_at_leaf tree_a_b tt (one_file doc_a_b)
  = (Raise OtherError, one_file doc_a_b).
Proof.
  exact (X6_accept_stops_at_first_exception unit stop_at_leaf tree_a_b
           (JSONLeaf (lit "a") 1 1 (Some (lit "1")))
           [tree_a_b]
           [ JSONComposite (lit "b") 1 2
               [ JSONLeaf (lit "Array[0]") 2 3 (Some (lit "2"));
                 JSONLeaf (lit "Array[1]") 2 4 None ];
             JSONLeaf (lit "Array[0]") 2 3 (Some (lit "2"));
             JSONLeaf (lit "Array[1]") 2 4 None ]
           tt tt (one_file doc_a_b) (one_file doc_a_b) (one_file doc_a_b)
           OtherError eq_refl eq_refl eq_refl).
Defined.

Lemma tree_a_b_encodable : Forall node_encodable (preorder tree_a_b).
Proof.
  unfold tree_a_b. cbn [preorder flat_map app].
  repeat (apply Forall_cons;
          [split; cbn [get_name get_value];
           first [exact I | apply Forall_nil | apply encodable_lit]|]).
  apply Forall_nil.
Defined.

Lemma X10_star_render_prints_all_but_root_witness :
  JSONNodeFactory.create (JSONNodeFactory.mk doc_a_b) (one_file doc_a_b)
  = (Ok tree_a_b, advance (one_file doc_a_b) 5) /\
  encodable (leaf_icon default_icons) /\
  encodable (composite_icon default_icons) /\
  Forall node_encodable (preorder tree_a_b) /\
  exists lines : list pystr, S (length lines) = json_size doc_a_b.
Proof.
  split; [reflexivity|]. split; [exact (encodable_lit " ")|].
  split; [exact (encodable_lit " ")|]. split; [exact tree_a_b_encodable|].
  destruct (X10_star_render_prints_all_but_root
              (JSONNodeFactory.mk doc_a_b) (one_file doc_a_b)
              (advance (one_file doc_a_b) 5) tree_a_b default_icons eq_refl
              (encodable_lit " ") (encodable_lit " ") tree_a_b_encodable
              (one_file doc_a_b))
    as (styled & lines & _ & _ & _ & _ & Hcount).
  exists lines. exact Hcount.
Defined.


Lemma X3_create_one_node_per_value_witness :
  JSONNodeFactory.create (JSONNodeFactory.mk doc_a_b) (one_file doc_a_b)
  = (Ok tree_a_b, advance (one_file doc_a_b) 5) /\
  size tree_a_b = json_size doc_a_b.
Proof.
  split; [reflexivity|].
  exact (proj1 (X3_create_one_node_per_value
                  (JSONNodeFactory.mk doc_a_b) (one_file doc_a_b)
                  (advance (one_file doc_a_b) 5) tree_a_b eq_refl)).
Defined.

Lemma X9_printer_prints_every_node_witness :
  JSONNodeFactory.create (JSONNodeFactory.mk doc_a_b) (one_file doc_a_b)
  = (Ok tree_a_b, advance (one_file doc_a_b) 5) /\
  Forall node_encodable (preorder tree_a_b) /\
  accept tree_a_b (tt : JSONPrinterVisitor.t) (one_file doc_a_b)
  = (Ok tt,
     mkWorld 0 ([] ++ map printer_line (preorder tree_a_b))
       (files (one_file doc_a_b))).
Proof.
  split; [reflexivity|]. split; [exact tree_a_b_encodable|].
  exact (proj1 (X9_printer_prints_every_node
                  (JSONNodeFactory.mk doc_a_b) (one_file doc_a_b)
                  (advance (one_file doc_a_b) 5) tree_a_b tt
                  (one_file doc_a_b) eq_refl tree_a_b_encodable)).
Defined.

Lemma X14_create_styled_json_star_witness :
  lookup (StyledJSONBuilder._icon_families
            (StyledJSONBuilder.init star_factory star_factory))
    (lit "default")
  = Some default_icons /\
  factory_build (lit "in.json") (one_file doc_a_b)
  = (Ok tree_a_b, advance (one_file doc_a_b) 5) /\
  exists star,
    StyledJSONBuilder.create_styled_json
      (StyledJSONBuilder.init star_factory star_factory)
      (lit "in.json") (lit "default") (lit "star") (one_file doc_a_b)
    = (Ok (StyledJSONNode.mk (StarStyledJSONNode.render star)),
       advance (one_file doc_a_b) 5).
Proof.
  split; [reflexivity|]. split; [reflexivity|].
  destruct (X14_create_styled_json_star star_factory star_factory
              (StyledJSONBuilder.init star_factory star_factory)
              (lit "in.json") (lit "default") (lit "star") default_icons
              tree_a_b (one_file doc_a_b) (advance (one_file doc_a_b) 5)
              eq_refl eq_refl eq_refl)
    as (_ & _ & star & _ & _ & _ & Hrun).
  exists star. exact Hrun.
Defined.

Lemma X11_only_the_last_line_can_be_too_long_witness :
  JSONNodeFactory.create (JSONNodeFactory.mk doc_a_b) (one_file doc_a_b)
  = (Ok tree_a_b, advance (one_file doc_a_b) 5) /\
  len (leaf_icon default_icons) = 1 /\
  len (composite_icon default_icons) = 1 /\
  exists styled lines,
    StarStyledJSONNode.render styled (one_file doc_a_b)
    = (Ok tt, mkWorld 0 ([] ++ lines) (files (one_file doc_a_b))) /\
    Forall (fun l => len l = GridWidthVisitor.grid_width
                              (StarStyledJSONNode.grid_width_visitor styled))
           (removelast lines).
Proof.
  split; [reflexivity|]. split; [reflexivity|]. split; [reflexivity|].
  destruct (X11_only_the_last_line_can_be_too_long
              (JSONNodeFactory.mk doc_a_b) (one_file doc_a_b)
              (advance (one_file doc_a_b) 5) tree_a_b default_icons
              eq_refl eq_refl eq_refl (one_file doc_a_b))
    as (styled & lines & _ & Hrender & Hall & _).
  exists styled, lines. split; [exact Hrender | exact Hall].
Defined.

Lemma X13_output_independent_of_id_counter_witness :
  JSONNodeFactory.create (JSONNodeFactory.mk doc_a) (one_file doc_a)
  = (Ok tree_a, advance (one_file doc_a) 2) /\
  JSONNodeFactory.create (JSONNodeFactory.mk doc_a)
    (advance (one_file doc_a) 2)
  = (Ok (shift_ids 2 tree_a), advance (one_file doc_a) 4) /\
  exists sa sb lines,
    StarStyledJSONNode.render sa (one_file doc_a)
    = (Ok tt, mkWorld 0 ([] ++ lines) (files (one_file doc_a))) /\
    StarStyledJSONNode.render sb (one_file doc_a)
    = (Ok tt, mkWorld 0 ([] ++ lines) (files (one_file doc_a))).
Proof.
  split; [reflexivity|]. split; [reflexivity|].
  destruct (X13_output_independent_of_id_counter
              (JSONNodeFactory.mk doc_a) (one_file doc_a)
              (advance (one_file doc_a) 2) (advance (one_file doc_a) 2)
              (advance (one_file doc_a) 4) tree_a (shift_ids 2 tree_a)
              default_icons eq_refl eq_refl (one_file doc_a) (one_file doc_a))
    as (sa & sb & lines & _ & _ & _ & Ha & Hb).
  exists sa, sb, lines. split; [exact Ha | exact Hb].
Defined.

Lemma icon_entry_x_ok :
  icon_entry icons_of_strings icon_entry_x (mkIconFamily (lit "C") (lit "L")).
Proof.
  exists (JScalar (PyStr (lit "C"))), (JScalar (PyStr (lit "L"))).
  split; [reflexivity|]. split; [reflexivity|]. intros w. reflexivity.
Defined.

Lemma X17_load_icon_family_registers_witness :
  files (one_file (JDict [icon_entry_x])) (lit "in.json")
  = Some (Some (JDict [icon_entry_x])) /\
  exists self',
    StyledJSONBuilder.load_icon_family icons_of_strings empty_builder
      (lit "in.json") (one_file (JDict [icon_entry_x]))
    = ((Ok tt, self'), one_file (JDict [icon_entry_x])) /\
    lookup (StyledJSONBuilder._icon_families self') (lit "x")
    = Some (mkIconFamily (lit "C") (lit "L")).
Proof.
  split; [reflexivity|].
  destruct (X17_load_icon_family_registers icons_of_strings empty_builder
              (lit "in.json") [icon_entry_x]
              (one_file (JDict [icon_entry_x])) eq_refl
              (Forall_cons _ (ex_intro _ _ icon_entry_x_ok) (Forall_nil _))
              (NoDup_cons _ (fun H : In _ [] => H) (NoDup_nil _)))
    as (self' & Hrun & _ & Hfound & _).
  exists self'. split; [exact Hrun|].
  exact (Hfound icon_entry_x _ (or_introl eq_refl) icon_entry_x_ok).
Defined.

Lemma X18_load_icon_family_fails_half_way_witness :
  lookup icon_fields_without_leaf (lit "leaf") = None /\
  exists self',
    StyledJSONBuilder.load_icon_family icons_of_strings empty_builder
      (lit "in.json")
      (one_file (JDict ([icon_entry_x]
                        ++ (lit "y", JDict icon_fields_without_leaf) :: [])))
    = ((Raise (FJEException (msg_bad_icon_file (lit "in.json"))), self'),
       one_file (JDict ([icon_entry_x]
                        ++ (lit "y", JDict icon_fields_without_leaf) :: [])))
    /\
    lookup (StyledJSONBuilder._icon_families self') (lit "x")
    = Some (mkIconFamily (lit "C") (lit "L")).
Proof.
  split; [reflexivity|].
  destruct (X18_load_icon_family_fails_half_way icons_of_strings
              empty_builder (lit "in.json") (lit "y") [icon_entry_x] []
              icon_fields_without_leaf
              (one_file (JDict ([icon_entry_x]
                        ++ (lit "y", JDict icon_fields_without_leaf) :: [])))
              eq_refl
              (Forall_cons _ (ex_intro _ _ icon_entry_x_ok) (Forall_nil _))
              (NoDup_cons _ (fun H : In _ [] => H) (NoDup_nil _))
              (or_intror eq_refl))
    as (self' & Hrun & Hfound & _).
  exists self'. split; [exact Hrun|].
  exact (Hfound icon_entry_x _ (or_introl eq_refl) icon_entry_x_ok).
Defined.

Lemma X19_last_line_at_level_1_length_witness :
  JSONNodeFactory.create (JSONNodeFactory.mk doc_a) (one_file doc_a)
  = (Ok tree_a, advance (one_file doc_a) 2) /\
  get_level (last (preorder tree_a) tree_a) = 1 /\
  exists styled lines,
    StarStyledJSONNode.render styled (one_file doc_a)
    = (Ok tt, mkWorld 0 ([] ++ lines) (files (one_file doc_a))) /\
    len (last lines [])
    = Z.max (node_width (last (preorder tree_a) tree_a) + 3)
        (GridWidthVisitor.grid_width
           (StarStyledJSONNode.grid_width_visitor styled)).
Proof.
  split; [reflexivity|]. split; [reflexivity|].
  destruct (X19_last_line_at_level_1_length
              (JSONNodeFactory.mk doc_a) (one_file doc_a)
              (advance (one_file doc_a) 2) tree_a default_icons
              eq_refl eq_refl eq_refl eq_refl (one_file doc_a))
    as (styled & lines & _ & Hrender & Hlen & _).
  exists styled, lines. split; [exact Hrender | exact Hlen].
Defined.
